(** * Entwine: linear addressing, Branch and the SleepyTree facade

    A shallow embedding of [entwine/tree/branch.cpp] and
    [entwine/tree/sleepy-tree.cpp].

    - [std::size_t] values are integers in [0, 2^64) held in [Z]; every
      arithmetic operation of the source is followed by its reduction
      modulo [2^64].
    - A C++ call either returns, throws, or has undefined behaviour:
      the three cases of [outcome]. *)

From Stdlib Require Import ZArith Lia List Ascii String Bool.
From stdpp Require Import gmap strings.
Import ListNotations.

Local Open Scope Z_scope.

(** ** Outcomes of a C++ call *)

Inductive exn : Type :=
| runtime_error (what : string)
| json_error (what : string)
| collaborator_error (what : string).

Inductive outcome (A : Type) : Type :=
| Returns (a : A)
| Throws (e : exn)
| Undefined.

Arguments Returns {A} a.
Arguments Throws {A} e.
Arguments Undefined {A}.

Definition bind {A B : Type} (m : outcome A) (k : A -> outcome B) : outcome B :=
  match m with
  | Returns a => k a
  | Throws e => Throws e
  | Undefined => Undefined
  end.

Notation "'do' x <- m ; k" := (bind m (fun x => k))
  (at level 10, x pattern, m at level 100, k at level 200,
   format "'[v' 'do'  x  <-  m ; '/' k ']'").

(** Splits a hypothesis [bind m k = Returns _] on the outcome of [m]. *)
Tactic Notation "bind_inv" hyp(H) "as" simple_intropattern(x) :=
  match type of H with
  | bind ?m _ = Returns _ =>
      let E := fresh "E" in
      destruct m as [x| |] eqn:E; cbn [bind] in H; [|discriminate..]
  end.

(** ** [std::size_t] *)

Module SizeT.

Definition bits : Z := 64.
Definition modulus : Z := 2 ^ bits.

(** Reduction of an integer result to its [size_t] value. *)
Definition wrap (z : Z) : Z := z mod modulus.

Definition add (x y : Z) : Z := wrap (x + y).
Definition sub (x y : Z) : Z := wrap (x - y).

(** [x << n]: the behaviour is undefined when the shift count is not
    smaller than the width of the type. *)
Definition shl (x n : Z) : outcome Z :=
  if n <? bits then Returns (wrap (Z.shiftl x n)) else Undefined.

(** The values a [size_t] variable can hold. *)
Definition in_range (z : Z) : Prop := 0 <= z < modulus.

End SizeT.

(** ** jsoncpp values, as far as the two files use them

    [Json::Value] without its floating-point alternative.  An object is
    kept as an association list with unique keys: assignment through
    [operator[]] replaces the member or adds it. *)

Module Json.

#[warnings="-register-all"] Inductive Value : Type :=
| Null
| Bool (b : bool)
| Int (z : Z)
| UInt (z : Z)
| String (s : string)
| Array (elements : list Value)
| Object (members : list (string * Value)).

Fixpoint lookup (key : string) (members : list (string * Value)) : option Value :=
  match members with
  | [] => None
  | (k, v) :: rest => if String.eqb k key then Some v else lookup key rest
  end.

Fixpoint update (key : string) (x : Value) (members : list (string * Value))
  : list (string * Value) :=
  match members with
  | [] => [(key, x)]
  | (k, v) :: rest =>
      if String.eqb k key then (k, x) :: rest else (k, v) :: update key x rest
  end.

Definition requires_object : exn :=
  json_error "in Json::Value::operator[]: requires objectValue".

(** [v[key]] read: a missing member, or any member of a null value, is
    null; a value that is neither null nor an object fails the
    library's assertion. *)
Definition get (v : Value) (key : string) : outcome Value :=
  match v with
  | Null => Returns Null
  | Object members =>
      Returns (match lookup key members with Some x => x | None => Null end)
  | _ => Throws requires_object
  end.

(** [v[key] = x]: a null value first becomes an empty object. *)
Definition set (v : Value) (key : string) (x : Value) : outcome Value :=
  match v with
  | Null => Returns (Object [(key, x)])
  | Object members => Returns (Object (update key x members))
  | _ => Throws requires_object
  end.

Definition asUInt64 (v : Value) : outcome Z :=
  match v with
  | Null => Returns 0
  | Bool b => Returns (if b then 1 else 0)
  | Int z =>
      if 0 <=? z then Returns z
      else Throws (json_error "LargestInt out of UInt64 range")
  | UInt z => Returns z
  | _ => Throws (json_error "Value is not convertible to UInt64")
  end.

End Json.

(** ** The file system seen through [std::ifstream] and [std::ofstream] *)

Module FS.

Record t : Type := mk {
  files : gmap string string;   (* path |-> content *)
  denied : gset string;         (* paths that cannot be opened *)
  full : bool                   (* no room left: writes store nothing *)
}.

(** [std::ifstream s(path)]: the content when [s.good()]. *)
Definition ifstream_open (fs : t) (path : string) : option string :=
  if decide (path ∈ denied fs) then None else files fs !! path.

(** [std::ofstream s(path, out | trunc)]: when [s.good()] the file
    exists and is empty from then on. *)
Definition ofstream_open_trunc (fs : t) (path : string) : option t :=
  if decide (path ∈ denied fs) then None
  else Some (mk (<[path := EmptyString]> (files fs)) (denied fs) (full fs)).

(** [s.write(data, n)] on an open stream.  A failed write only sets
    the stream's error state. *)
Definition ofstream_write (fs : t) (path : string) (data : string) : t :=
  if full fs then fs
  else mk (<[path := (default EmptyString (files fs !! path) ++ data)%string]> (files fs))
          (denied fs) (full fs).

End FS.

(** ** branch.cpp, anonymous namespace: [getOffset] *)

(** The body of the [for] loop, run [n] more times from [offset]. *)
Fixpoint getOffset_loop (n : nat) (dimensions offset : Z) : outcome Z :=
  match n with
  | O => Returns offset
  | S n' =>
      do shifted <- SizeT.shl offset dimensions;
      getOffset_loop n' dimensions (SizeT.add shifted 1)
  end.

Definition getOffset (depth dimensions : Z) : outcome Z :=
  getOffset_loop (Z.to_nat depth) dimensions 0.

(** The body of the loop as a function of the running offset. *)
Definition getOffset_body (dimensions offset : Z) : outcome Z :=
  do shifted <- SizeT.shl offset dimensions;
  Returns (SizeT.add shifted 1).

(** The address recurrence in the words of the specification, over the
    unbounded integers: [Addr(0) = 0], [Addr(i+1) = Addr(i) * 2^D + 1]. *)
Fixpoint Addr (D : Z) (i : nat) : Z :=
  match i with
  | O => 0
  | S i' => Addr D i' * 2 ^ D + 1
  end.

(** Number of levels whose addresses fit a 64-bit index: the least [k]
    with [k * D >= 64]. *)
Definition capacity (D : Z) : nat := Z.to_nat ((SizeT.bits + D - 1) / D).

(** ** branch.cpp: [Branch] *)

Module Branch.
Section WithSchema.

Context {Schema : Type}.

Record t : Type := mk {
  m_schema : Schema;
  m_depthBegin : Z;
  m_depthEnd : Z;
  m_indexBegin : Z;
  m_indexEnd : Z
}.

(** [Branch::Branch(schema, dimensions, depthBegin, depthEnd)]; the
    members are initialised in declaration order. *)
Definition make (schema : Schema) (dimensions depthBegin depthEnd : Z)
  : outcome t :=
  do indexBegin <- getOffset depthBegin dimensions;
  do indexEnd <- getOffset depthEnd dimensions;
  Returns (mk schema depthBegin depthEnd indexBegin indexEnd).

Definition accepts (b : t) (index : Z) : bool :=
  (m_indexBegin b <=? index) && (index <? m_indexEnd b).

Definition schema (b : t) : Schema := m_schema b.
Definition depthBegin (b : t) : Z := m_depthBegin b.
Definition depthEnd (b : t) : Z := m_depthEnd b.
Definition indexBegin (b : t) : Z := m_indexBegin b.
Definition indexEnd (b : t) : Z := m_indexEnd b.

Definition size (b : t) : Z := SizeT.sub (m_indexEnd b) (m_indexBegin b).

(** [Branch::Branch(schema, dimensions, meta)]. *)
Definition from_meta (schema : Schema) (dimensions : Z) (meta : Json.Value)
  : outcome t :=
  do jBegin <- Json.get meta "depthBegin";
  do depthBegin <- Json.asUInt64 jBegin;
  do jEnd <- Json.get meta "depthEnd";
  do depthEnd <- Json.asUInt64 jEnd;
  do indexBegin <- getOffset depthBegin dimensions;
  do indexEnd <- getOffset depthEnd dimensions;
  Returns (mk schema depthBegin depthEnd indexBegin indexEnd).

(** The storage tier behind a branch: the pure virtual [saveImpl]. *)
Class Tier : Type := {
  saveImpl : t -> string -> Json.Value -> FS.t -> outcome (Json.Value * FS.t)
}.

(** The two assignments [Branch::save] makes before it delegates. *)
Definition save_bounds (b : t) (meta : Json.Value) : outcome Json.Value :=
  do meta <- Json.set meta "depthBegin" (Json.UInt (m_depthBegin b));
  Json.set meta "depthEnd" (Json.UInt (m_depthEnd b)).

Definition save {T : Tier} (b : t) (path : string) (meta : Json.Value) (fs : FS.t)
  : outcome (Json.Value * FS.t) :=
  do meta <- save_bounds b meta;
  saveImpl b path meta fs.

End WithSchema.
Arguments t : clear implicits.
Arguments Tier : clear implicits.
End Branch.

(** ** Collaborators of the facade

    Bounding boxes, schemas, point buffers, the Roller, the Registry and
    the jsoncpp reader and writer are used by [sleepy-tree.cpp] through
    their interfaces only.  Calls that may fail return an [outcome]. *)

Record Point (double : Type) : Type := mkPoint { x : double; y : double }.
Arguments mkPoint {double} x y.

(** The arguments [SleepyTree::insert] passes to [new PointInfo]. *)
Record PointInfo (PointContext PointBuffer : Type) : Type := mkPointInfo {
  pi_context : PointContext;
  pi_buffer : PointBuffer;
  pi_index : Z;
  pi_origin : Z
}.
Arguments mkPointInfo {PointContext PointBuffer} _ _ _ _.
Arguments pi_context {PointContext PointBuffer} _.
Arguments pi_buffer {PointContext PointBuffer} _.
Arguments pi_index {PointContext PointBuffer} _.
Arguments pi_origin {PointContext PointBuffer} _.

Class Collaborators : Type := {
  double : Type;
  BBox : Type;
  Schema : Type;
  PointContext : Type;
  PointBuffer : Type;
  Roller : Type;
  Registry : Type;
  MultiResults : Type;
  (* entwine/types/bbox.hpp *)
  BBox_contains : BBox -> Point double -> bool;
  BBox_toJson : BBox -> Json.Value;
  BBox_fromJson : Json.Value -> outcome BBox;
  (* entwine/types/schema.hpp *)
  Schema_pointContext : Schema -> PointContext;
  Schema_toJson : Schema -> Json.Value;
  Schema_fromJson : Json.Value -> outcome Schema;
  (* pdal/PointBuffer.hpp *)
  PointBuffer_size : PointBuffer -> Z;
  PointBuffer_getX : PointBuffer -> Z -> double;
  PointBuffer_getY : PointBuffer -> Z -> double;
  (* entwine/tree/roller.hpp *)
  Roller_make : BBox -> Roller;
  (* entwine/tree/registry.hpp *)
  MultiResults_empty : MultiResults;
  Registry_make : Schema -> Z -> Z -> Z -> outcome Registry;
  Registry_put :
    Registry -> PointInfo PointContext PointBuffer -> Roller -> outcome Registry;
  Registry_save :
    Registry -> string -> Json.Value -> FS.t ->
    outcome (Registry * Json.Value * FS.t);
  Registry_load : Registry -> string -> Json.Value -> FS.t -> outcome Registry;
  Registry_getPoints :
    Registry -> Roller -> MultiResults -> Z -> Z -> outcome MultiResults;
  Registry_getPoints_within :
    Registry -> Roller -> MultiResults -> BBox -> Z -> Z -> outcome MultiResults;
  (* jsoncpp writer and reader *)
  toStyledString : Json.Value -> string;
  Reader_parse : string -> bool * Json.Value
}.

(** [*p] for a [std::unique_ptr]: undefined when it holds nothing. *)
Definition deref {A : Type} (p : option A) : outcome A :=
  match p with
  | Some a => Returns a
  | None => Undefined
  end.

(** ** sleepy-tree.cpp: [SleepyTree] *)

Module SleepyTree.
Section WithCollaborators.

Context {C : Collaborators}.

Record t : Type := mk {
  m_dir : string;
  m_bbox : option BBox;
  m_schema : option Schema;
  m_numPoints : Z;
  m_registry : option Registry
}.

(** [SleepyTree(dir, bbox, schema, baseDepth, flatDepth, diskDepth)]. *)
Definition make (dir : string) (bbox : BBox) (schema : Schema)
    (baseDepth flatDepth diskDepth : Z) : outcome t :=
  do registry <- Registry_make schema baseDepth flatDepth diskDepth;
  Returns (mk dir (Some bbox) (Some schema) 0 (Some registry)).

Definition getBounds (tree : t) : outcome BBox := deref (m_bbox tree).

Definition numPoints (tree : t) : Z := m_numPoints tree.

Definition dir (tree : t) : string := m_dir tree.

Definition pointContext (tree : t) : outcome PointContext :=
  do schema <- deref (m_schema tree);
  Returns (Schema_pointContext schema).

Definition metaPath (tree : t) : string := (m_dir tree ++ "/meta")%string.

Definition could_not_open (tree : t) : exn :=
  runtime_error ("Could not open " ++ metaPath tree)%string.

(** The point [insert] reads for sample [i]. *)
Definition sample_point (pointBuffer : PointBuffer) (i : Z) : Point double :=
  mkPoint (PointBuffer_getX pointBuffer i) (PointBuffer_getY pointBuffer i).

(** One turn of the loop of [insert], for sample [i]. *)
Definition insert_sample (pointBuffer : PointBuffer) (origin : Z) (i : Z)
    (tree : t) : outcome t :=
  let point := sample_point pointBuffer i in
  do bbox <- deref (m_bbox tree);
  if BBox_contains bbox point then
    let roller := Roller_make bbox in
    do schema <- deref (m_schema tree);
    let pointInfo :=
      mkPointInfo (Schema_pointContext schema) pointBuffer i origin in
    do registry <- deref (m_registry tree);
    do registry <- Registry_put registry pointInfo roller;
    Returns (mk (m_dir tree) (m_bbox tree) (m_schema tree)
                (SizeT.add (m_numPoints tree) 1) (Some registry))
  else Returns tree.

Fixpoint insert_loop (pointBuffer : PointBuffer) (origin : Z)
    (indices : list Z) (tree : t) : outcome t :=
  match indices with
  | [] => Returns tree
  | i :: rest =>
      do tree <- insert_sample pointBuffer origin i tree;
      insert_loop pointBuffer origin rest tree
  end.

(** The values [i] takes in [for (i = 0; i < size; ++i)]. *)
Definition indices (size : Z) : list Z :=
  map Z.of_nat (seq 0 (Z.to_nat size)).

Definition insert (tree : t) (pointBuffer : PointBuffer) (origin : Z)
  : outcome t :=
  insert_loop pointBuffer origin (indices (PointBuffer_size pointBuffer)) tree.

(** The samples of a buffer that lie in [bbox], by index, in order. *)
Definition contained (bbox : BBox) (pointBuffer : PointBuffer) : list Z :=
  List.filter (fun i => BBox_contains bbox (sample_point pointBuffer i))
              (indices (PointBuffer_size pointBuffer)).

(** Placing the listed samples one after the other, each from a fresh
    Roller at the root and tagged with [origin]. *)
Fixpoint put_all (bbox : BBox) (context : PointContext)
    (pointBuffer : PointBuffer) (origin : Z) (samples : list Z)
    (registry : Registry) : outcome Registry :=
  match samples with
  | [] => Returns registry
  | i :: rest =>
      do registry <-
        Registry_put registry (mkPointInfo context pointBuffer i origin)
                     (Roller_make bbox);
      put_all bbox context pointBuffer origin rest registry
  end.

(** Every pointer member holds an object. *)
Definition initialised (tree : t) : Prop :=
  (exists bbox, m_bbox tree = Some bbox) /\
  (exists schema, m_schema tree = Some schema) /\
  (exists registry, m_registry tree = Some registry).

(** The same tree with another value of the counter. *)
Definition with_numPoints (tree : t) (n : Z) : t :=
  mk (m_dir tree) (m_bbox tree) (m_schema tree) n (m_registry tree).

Definition addMeta (tree : t) (meta : Json.Value) : outcome Json.Value :=
  do bbox <- deref (m_bbox tree);
  do meta <- Json.set meta "bbox" (BBox_toJson bbox);
  do schema <- deref (m_schema tree);
  Json.set meta "schema" (Schema_toJson schema).

(** [save], up to the point where the stream is opened: the metadata
    document is complete and the Registry has written its own files. *)
Definition save_document (tree : t) (fs : FS.t)
  : outcome (Registry * Json.Value * FS.t) :=
  do jsonMeta <- addMeta tree Json.Null;
  do registry <- deref (m_registry tree);
  do sub <- Json.get jsonMeta "registry";
  do (registry, sub, fs) <- Registry_save registry (m_dir tree) sub fs;
  do jsonMeta <- Json.set jsonMeta "registry" sub;
  Returns (registry, jsonMeta, fs).

Definition save (tree : t) (fs : FS.t) : outcome (t * FS.t) :=
  do (registry, jsonMeta, fs) <- save_document tree fs;
  match FS.ofstream_open_trunc fs (metaPath tree) with
  | None => Throws (could_not_open tree)
  | Some fs =>
      let metaString := toStyledString jsonMeta in
      Returns (mk (m_dir tree) (m_bbox tree) (m_schema tree)
                  (m_numPoints tree) (Some registry),
               FS.ofstream_write fs (metaPath tree) metaString)
  end.

(** The file system left behind when [save] is cut short after the
    stream was opened and only the first [n] bytes of the document
    reached the file. *)
Definition save_interrupted (tree : t) (fs : FS.t) (n : nat) : outcome FS.t :=
  do (registry, jsonMeta, fs) <- save_document tree fs;
  match FS.ofstream_open_trunc fs (metaPath tree) with
  | None => Throws (could_not_open tree)
  | Some fs =>
      let metaString := toStyledString jsonMeta in
      Returns (FS.ofstream_write fs (metaPath tree) (substring 0 n metaString))
  end.

Definition load (tree : t) (fs : FS.t) : outcome t :=
  match FS.ifstream_open fs (metaPath tree) with
  | None => Throws (could_not_open tree)
  | Some content =>
      (* the result of [reader.parse] is not looked at *)
      let meta := snd (Reader_parse content) in
      do jBBox <- Json.get meta "bbox";
      do bbox <- BBox_fromJson jBBox;
      do jSchema <- Json.get meta "schema";
      do schema <- Schema_fromJson jSchema;
      do treeMeta <- Json.get meta "tree";
      do jBase <- Json.get treeMeta "baseDepth";
      do baseDepth <- Json.asUInt64 jBase;
      do jFlat <- Json.get treeMeta "flatDepth";
      do flatDepth <- Json.asUInt64 jFlat;
      do jDisk <- Json.get treeMeta "diskDepth";
      do diskDepth <- Json.asUInt64 jDisk;
      do registry <- Registry_make schema baseDepth flatDepth diskDepth;
      do jRegistry <- Json.get meta "registry";
      do registry <- Registry_load registry (m_dir tree) jRegistry fs;
      Returns (mk (m_dir tree) (Some bbox) (Some schema)
                  (m_numPoints tree) (Some registry))
  end.

(** [SleepyTree(dir)]: every pointer empty, the counter zero, then
    [load()]. *)
Definition open (dir : string) (fs : FS.t) : outcome t :=
  load (mk dir None None 0 None) fs.



End WithCollaborators.
End SleepyTree.

(** ** A concrete set of collaborators

    Small executable stand-ins on which the statements below are run:
    integer coordinates, a half-open rectangle as bounding box, a
    Registry that keeps the placed points in a list, and a textual
    format for metadata that the reader parses back. *)

Module Reference.

(** *** Metadata as text *)

Fixpoint write_bits (p : positive) (acc : string) : string :=
  match p with
  | xH => String "1"%char acc
  | xO q => write_bits q (String "0"%char acc)
  | xI q => write_bits q (String "1"%char acc)
  end.

Definition write_Z (z : Z) : string :=
  match z with
  | Z0 => "+."
  | Zpos p => String "+"%char (write_bits p ".")
  | Zneg p => String "-"%char (write_bits p ".")
  end.

Fixpoint write_value (v : Json.Value) : string :=
  match v with
  | Json.Null => "n"
  | Json.Bool true => "t"
  | Json.Bool false => "f"
  | Json.Int z => String "i"%char (write_Z z)
  | Json.UInt z => String "u"%char (write_Z z)
  | Json.String str =>
      String "s"%char (write_Z (Z.of_nat (String.length str)) ++ str)
  | Json.Array elements =>
      String "["%char (fold_right (fun e acc => write_value e ++ acc) "]" elements)
  | Json.Object members =>
      String "{"
        (fold_right
           (fun m acc =>
              write_Z (Z.of_nat (String.length (fst m))) ++ fst m
              ++ write_value (snd m) ++ acc)
           "}" members)
  end%string.

Fixpoint read_bits (s : string) (acc : Z) : option (Z * string) :=
  match s with
  | String "0"%char rest => read_bits rest (2 * acc)
  | String "1"%char rest => read_bits rest (2 * acc + 1)
  | String "."%char rest => Some (acc, rest)
  | _ => None
  end.

Definition read_Z (s : string) : option (Z * string) :=
  match s with
  | String "+"%char rest => read_bits rest 0
  | String "-"%char rest =>
      match read_bits rest 0 with
      | Some (z, rest) => Some (- z, rest)
      | None => None
      end
  | _ => None
  end.

Definition read_string (s : string) : option (string * string) :=
  match read_Z s with
  | Some (n, rest) =>
      if Z.of_nat (String.length rest) <? n then None
      else Some (substring 0 (Z.to_nat n) rest,
                 substring (Z.to_nat n) (String.length rest - Z.to_nat n) rest)
  | None => None
  end.

Fixpoint read_value (fuel : nat) (s : string) : option (Json.Value * string) :=
  match fuel with
  | O => None
  | S fuel =>
      match s with
      | String "n"%char rest => Some (Json.Null, rest)
      | String "t"%char rest => Some (Json.Bool true, rest)
      | String "f"%char rest => Some (Json.Bool false, rest)
      | String "i"%char rest =>
          match read_Z rest with
          | Some (z, rest) => Some (Json.Int z, rest)
          | None => None
          end
      | String "u"%char rest =>
          match read_Z rest with
          | Some (z, rest) => Some (Json.UInt z, rest)
          | None => None
          end
      | String "s"%char rest =>
          match read_string rest with
          | Some (str, rest) => Some (Json.String str, rest)
          | None => None
          end
      | String "["%char rest =>
          match read_elements fuel rest with
          | Some (elements, rest) => Some (Json.Array elements, rest)
          | None => None
          end
      | String "{"%char rest =>
          match read_members fuel rest with
          | Some (members, rest) => Some (Json.Object members, rest)
          | None => None
          end
      | _ => None
      end
  end
with read_elements (fuel : nat) (s : string)
  : option (list Json.Value * string) :=
  match fuel with
  | O => None
  | S fuel =>
      match s with
      | String "]"%char rest => Some ([], rest)
      | _ =>
          match read_value fuel s with
          | Some (v, rest) =>
              match read_elements fuel rest with
              | Some (vs, rest) => Some (v :: vs, rest)
              | None => None
              end
          | None => None
          end
      end
  end
with read_members (fuel : nat) (s : string)
  : option (list (string * Json.Value) * string) :=
  match fuel with
  | O => None
  | S fuel =>
      match s with
      | String "}"%char rest => Some ([], rest)
      | _ =>
          match read_string s with
          | Some (key, rest) =>
              match read_value fuel rest with
              | Some (v, rest) =>
                  match read_members fuel rest with
                  | Some (ms, rest) => Some ((key, v) :: ms, rest)
                  | None => None
                  end
              | None => None
              end
          | None => None
          end
      end
  end.

Definition parse (document : string) : bool * Json.Value :=
  match read_value (S (String.length document)) document with
  | Some (v, EmptyString) => (true, v)
  | _ => (false, Json.Null)
  end.

(** *** Geometry, buffers and the Registry *)

Record Rect : Type := mkRect { min_x : Z; min_y : Z; max_x : Z; max_y : Z }.

Definition contains (b : Rect) (p : Point Z) : bool :=
  (min_x b <=? x Z p) && (x Z p <? max_x b)
  && (min_y b <=? y Z p) && (y Z p <? max_y b).

Definition rect_toJson (b : Rect) : Json.Value :=
  Json.Array [Json.Int (min_x b); Json.Int (min_y b);
              Json.Int (max_x b); Json.Int (max_y b)].

Definition rect_fromJson (j : Json.Value) : outcome Rect :=
  match j with
  | Json.Array [Json.Int a; Json.Int b; Json.Int c; Json.Int d] =>
      Returns (mkRect a b c d)
  | _ => Throws (collaborator_error "BBox::fromJson")
  end.

Definition Samples : Type := list (Z * Z).

Definition sample (buffer : Samples) (i : Z) : Z * Z :=
  nth (Z.to_nat i) buffer (0, 0).

Definition Stored : Type := list (PointInfo unit Samples).

#[global] Instance collaborators : Collaborators := {|
  double := Z;
  BBox := Rect;
  Schema := unit;
  PointContext := unit;
  PointBuffer := Samples;
  Roller := Rect;
  Registry := Stored;
  MultiResults := Stored;
  BBox_contains := contains;
  BBox_toJson := rect_toJson;
  BBox_fromJson := rect_fromJson;
  Schema_pointContext := fun _ => tt;
  Schema_toJson := fun _ => Json.Array [];
  Schema_fromJson := fun _ => Returns tt;
  PointBuffer_size := fun buffer => Z.of_nat (List.length buffer);
  PointBuffer_getX := fun buffer i => fst (sample buffer i);
  PointBuffer_getY := fun buffer i => snd (sample buffer i);
  Roller_make := fun bbox => bbox;
  MultiResults_empty := [];
  Registry_make := fun _ _ _ _ => Returns [];
  Registry_put := fun registry info _ => Returns (info :: registry);
  Registry_save := fun registry _ _ fs =>
    Returns (registry, Json.UInt (Z.of_nat (List.length registry)), fs);
  Registry_load := fun registry _ _ _ => Returns registry;
  Registry_getPoints := fun registry _ results _ _ =>
    Returns (results ++ registry);
  Registry_getPoints_within := fun registry _ results _ _ _ =>
    Returns (results ++ registry);
  toStyledString := write_value;
  Reader_parse := parse
|}.

(** A tier that keeps its range in memory and only records its kind. *)
#[global] Instance resident : Branch.Tier unit := {|
  Branch.saveImpl := fun _ _ meta fs =>
    do meta <- Json.set meta "tier" (Json.String "resident");
    Returns (meta, fs)
|}.

Definition no_files : FS.t := FS.mk ∅ ∅ false.

Definition unit_square : Rect := mkRect 0 0 10 10.

(** Three samples, the second outside [unit_square]. *)
Definition three_samples : Samples := [(1, 1); (20, 3); (4, 9)].

(** A tree over [unit_square] holding nothing, its counter at [n]. *)
Definition tree_at (n : Z) : SleepyTree.t :=
  SleepyTree.mk (C := collaborators) "out" (Some unit_square) (Some tt) n (Some []).

(** [tree_at 0] after [three_samples] were inserted with origin 7. *)
Definition two_points : SleepyTree.t :=
  SleepyTree.mk (C := collaborators) "out" (Some unit_square) (Some tt) 2
    (Some [mkPointInfo tt three_samples 2 7; mkPointInfo tt three_samples 0 7]).

(** The metadata document of [two_points], as text. *)
Definition two_points_text : string :=
  "{+100.bbox[i+.i+.i+1010.i+1010.]+110.schema[]+1000.registryu+10.}".

(** The files after [two_points] was saved into an empty file system. *)
Definition saved : FS.t := FS.mk {[ "out/meta"%string := two_points_text ]} ∅ false.

(** The same directory with an emptied metadata file. *)
Definition emptied : FS.t := FS.mk {[ "out/meta"%string := EmptyString ]} ∅ false.

(** A device without room. *)
Definition no_room : FS.t := FS.mk ∅ ∅ true.

End Reference.

(** ** Collaborators that persist and forgive

    A second set of stand-ins.  The Registry records each placed sample
    as (index, origin), writes that list into its metadata node and
    reads it back; the bounding box reads a null value as the box with
    all coordinates 0 instead of refusing it. *)

Module Durable.

Definition Placed : Type := list (Z * Z).

Definition placed_toJson (p : Z * Z) : Json.Value :=
  Json.Array [Json.Int (fst p); Json.Int (snd p)].

Definition placed_fromJson (j : Json.Value) : option (Z * Z) :=
  match j with
  | Json.Array [Json.Int i; Json.Int origin] => Some (i, origin)
  | _ => None
  end.

Fixpoint placed_all (elements : list Json.Value) : option Placed :=
  match elements with
  | [] => Some []
  | j :: rest =>
      match placed_fromJson j, placed_all rest with
      | Some p, Some ps => Some (p :: ps)
      | _, _ => None
      end
  end.

Definition registry_load (j : Json.Value) : outcome Placed :=
  match j with
  | Json.Null => Returns []
  | Json.Array elements =>
      match placed_all elements with
      | Some ps => Returns ps
      | None => Throws (collaborator_error "Registry::load")
      end
  | _ => Throws (collaborator_error "Registry::load")
  end.

Definition rect_fromJson (j : Json.Value) : outcome Reference.Rect :=
  match j with
  | Json.Null => Returns (Reference.mkRect 0 0 0 0)
  | _ => Reference.rect_fromJson j
  end.

Definition collaborators : Collaborators := {|
  double := Z;
  BBox := Reference.Rect;
  Schema := unit;
  PointContext := unit;
  PointBuffer := Reference.Samples;
  Roller := Reference.Rect;
  Registry := Placed;
  MultiResults := Placed;
  BBox_contains := Reference.contains;
  BBox_toJson := Reference.rect_toJson;
  BBox_fromJson := rect_fromJson;
  Schema_pointContext := fun _ => tt;
  Schema_toJson := fun _ => Json.Array [];
  Schema_fromJson := fun _ => Returns tt;
  PointBuffer_size := fun buffer => Z.of_nat (List.length buffer);
  PointBuffer_getX := fun buffer i => fst (Reference.sample buffer i);
  PointBuffer_getY := fun buffer i => snd (Reference.sample buffer i);
  Roller_make := fun bbox => bbox;
  MultiResults_empty := [];
  Registry_make := fun _ _ _ _ => Returns [];
  Registry_put := fun registry info _ =>
    Returns ((pi_index info, pi_origin info) :: registry);
  Registry_save := fun registry _ _ fs =>
    Returns (registry, Json.Array (map placed_toJson registry), fs);
  Registry_load := fun _ _ j _ => registry_load j;
  Registry_getPoints := fun registry _ results _ _ =>
    Returns (results ++ registry);
  Registry_getPoints_within := fun registry _ results _ _ _ =>
    Returns (results ++ registry);
  toStyledString := Reference.write_value;
  Reader_parse := Reference.parse
|}.


(** The metadata document of [tree_with n [(2, 7); (0, 7)]], as text. *)
Definition two_points_text : string :=
  "{+100.bbox[i+.i+.i+1010.i+1010.]+110.schema[]+1000.registry[[i+10.i+111.][i+.i+111.]]}".

Definition saved : FS.t :=
  FS.mk {[ "out/meta"%string := two_points_text ]} ∅ false.

(** A directory whose metadata file does not hold a document. *)
Definition garbled : FS.t :=
  FS.mk {[ "out/meta"%string := "not a document"%string ]} ∅ false.

End Durable.

(** * Properties *)

(** ** Arithmetic of the address recurrence *)

Lemma modulus_eq : SizeT.modulus = 18446744073709551616.
Proof. reflexivity. Qed.

Lemma Addr_nonneg D i : 0 <= D -> 0 <= Addr D i.
Proof.
  intros HD. induction i as [|i IH]; simpl; [lia|].
  assert (0 < 2 ^ D) by (apply Z.pow_pos_nonneg; lia). nia.
Qed.

(** Level [i] contributes [2^(i*D)] addresses. *)
Lemma Addr_step D i : 0 <= D -> Addr D (S i) = Addr D i + 2 ^ (Z.of_nat i * D).
Proof.
  intros HD. induction i as [|i IH].
  - cbn [Addr]. change (Z.of_nat 0 * D) with 0. lia.
  - change (Addr D (S (S i))) with (Addr D (S i) * 2 ^ D + 1).
    rewrite IH at 1.
    change (Addr D (S i)) with (Addr D i * 2 ^ D + 1).
    replace (Z.of_nat (S i) * D) with (Z.of_nat i * D + D) by lia.
    rewrite Z.pow_add_r by lia. ring.
Qed.

Lemma Addr_mono_step D i : 0 <= D -> Addr D i <= Addr D (S i).
Proof.
  intros HD. rewrite Addr_step by assumption.
  assert (0 < 2 ^ (Z.of_nat i * D)) by (apply Z.pow_pos_nonneg; lia). lia.
Qed.

Lemma Addr_mono D i j : 0 <= D -> (i <= j)%nat -> Addr D i <= Addr D j.
Proof.
  intros HD Hij. induction Hij as [|j _ IH]; [lia|].
  pose proof (Addr_mono_step D j HD). lia.
Qed.

(** [Addr D (S i)] has its highest bit at position [i * D]. *)
Lemma Addr_upper D i : 1 <= D -> Addr D (S i) < 2 ^ (Z.of_nat i * D + 1).
Proof.
  intros HD. induction i as [|i IH].
  - cbn [Addr]. change (Z.of_nat 0 * D + 1) with 1. lia.
  - rewrite Addr_step by lia.
    rewrite Z.pow_add_r by lia. change (2 ^ 1) with 2.
    assert (2 ^ (Z.of_nat i * D + 1) <= 2 ^ (Z.of_nat (S i) * D))
      by (apply Z.pow_le_mono_r; lia).
    lia.
Qed.

(** ** The loop of [getOffset] *)

(** One more iteration is one more application of the loop body to the
    value the shorter loop produced. *)
Lemma getOffset_loop_snoc n D x :
  getOffset_loop (S n) D x = bind (getOffset_loop n D x) (getOffset_body D).
Proof.
  revert x. induction n as [|n IH]; intros x.
  - reflexivity.
  - change (getOffset_loop (S (S n)) D x)
      with (do shifted <- SizeT.shl x D;
            getOffset_loop (S n) D (SizeT.add shifted 1)).
    cbn [getOffset_loop] in IH |- *.
    destruct (SizeT.shl x D) as [s| |]; cbn [bind]; [|reflexivity..].
    apply IH.
Qed.

Lemma shl_defined x D :
  0 <= D < SizeT.bits -> SizeT.shl x D = Returns (SizeT.wrap (x * 2 ^ D)).
Proof.
  intros [H0 H1]. unfold SizeT.shl.
  destruct (Z.ltb_spec D SizeT.bits); [|lia].
  now rewrite Z.shiftl_mul_pow2.
Qed.

Lemma shl_undefined x D : SizeT.bits <= D -> SizeT.shl x D = Undefined.
Proof.
  intros H. unfold SizeT.shl. destruct (Z.ltb_spec D SizeT.bits); [lia|reflexivity].
Qed.

Lemma wrap_small z : SizeT.in_range z -> SizeT.wrap z = z.
Proof. unfold SizeT.in_range, SizeT.wrap. intros H. now apply Z.mod_small. Qed.

Lemma wrap_body a D :
  SizeT.add (SizeT.wrap (SizeT.wrap a * 2 ^ D)) 1 = SizeT.wrap (a * 2 ^ D + 1).
Proof.
  assert (Hm : SizeT.modulus <> 0) by (rewrite modulus_eq; lia).
  unfold SizeT.add, SizeT.wrap.
  rewrite Z.add_mod_idemp_l by assumption.
  rewrite <- (Z.add_mod_idemp_l (a mod SizeT.modulus * 2 ^ D)) by assumption.
  rewrite Z.mul_mod_idemp_l by assumption.
  now rewrite Z.add_mod_idemp_l by assumption.
Qed.

Lemma wrap_step a D :
  SizeT.wrap (SizeT.wrap a * 2 ^ D + 1) = SizeT.wrap (a * 2 ^ D + 1).
Proof.
  assert (Hm : SizeT.modulus <> 0) by (rewrite modulus_eq; lia).
  unfold SizeT.wrap.
  rewrite <- (Z.add_mod_idemp_l (a mod SizeT.modulus * 2 ^ D)) by assumption.
  rewrite Z.mul_mod_idemp_l by assumption.
  now rewrite Z.add_mod_idemp_l by assumption.
Qed.

(** Below the width of the type the loop computes the recurrence modulo
    [2^64]. *)
Lemma getOffset_loop_wrap n D :
  0 <= D < SizeT.bits ->
  getOffset_loop n D 0 = Returns (SizeT.wrap (Addr D n)).
Proof.
  intros HD. induction n as [|n IH].
  - reflexivity.
  - rewrite getOffset_loop_snoc, IH. cbn [bind]. unfold getOffset_body.
    rewrite shl_defined by assumption. cbn [bind Addr].
    now rewrite wrap_body.
Qed.

Lemma getOffset_loop_undefined n D x :
  SizeT.bits <= D -> getOffset_loop (S n) D x = Undefined.
Proof.
  intros HD. cbn [getOffset_loop]. now rewrite shl_undefined.
Qed.

Lemma getOffset_wrap depth D :
  0 <= D < SizeT.bits ->
  getOffset depth D = Returns (SizeT.wrap (Addr D (Z.to_nat depth))).
Proof. intros HD. unfold getOffset. now apply getOffset_loop_wrap. Qed.

Lemma getOffset_undefined depth D :
  SizeT.bits <= D -> 0 < depth -> getOffset depth D = Undefined.
Proof.
  intros HD Hd. unfold getOffset.
  destruct (Z.to_nat depth) as [|n] eqn:E; [lia|].
  now apply getOffset_loop_undefined.
Qed.

Lemma getOffset_never_throws depth D e : getOffset depth D <> Throws e.
Proof.
  unfold getOffset. generalize 0.
  induction (Z.to_nat depth) as [|n IH]; intros x; cbn [getOffset_loop].
  - discriminate.
  - unfold SizeT.shl. destruct (D <? SizeT.bits); cbn [bind]; [apply IH|discriminate].
Qed.

(** ** Capacity and saturation *)

Lemma capacity_spec D :
  1 <= D ->
  SizeT.bits <= Z.of_nat (capacity D) * D /\
  (Z.of_nat (capacity D) - 1) * D < SizeT.bits.
Proof.
  intros HD. unfold capacity.
  assert (Hq : 0 <= (SizeT.bits + D - 1) / D)
    by (apply Z.div_pos; unfold SizeT.bits; lia).
  rewrite Z2Nat.id by assumption.
  pose proof (Z.div_mod (SizeT.bits + D - 1) D ltac:(lia)) as Hdm.
  pose proof (Z.mod_pos_bound (SizeT.bits + D - 1) D ltac:(lia)) as Hr.
  unfold SizeT.bits in *. nia.
Qed.

Lemma Addr_fits D n :
  1 <= D -> (n <= capacity D)%nat -> SizeT.in_range (Addr D n).
Proof.
  intros HD Hn. split; [apply Addr_nonneg; lia|].
  destruct n as [|k]; [reflexivity|].
  pose proof (capacity_spec D HD) as [_ Hc].
  pose proof (Addr_upper D k HD) as Hu.
  assert (Z.of_nat k * D + 1 <= SizeT.bits) by nia.
  assert (2 ^ (Z.of_nat k * D + 1) <= 2 ^ SizeT.bits)
    by (apply Z.pow_le_mono_r; lia).
  unfold SizeT.modulus. lia.
Qed.

Lemma Addr_overflows D n :
  1 <= D -> (capacity D < n)%nat -> SizeT.modulus <= Addr D n.
Proof.
  intros HD Hn.
  pose proof (capacity_spec D HD) as [Hc _].
  apply Z.le_trans with (Addr D (S (capacity D))).
  - rewrite Addr_step by lia.
    assert (2 ^ SizeT.bits <= 2 ^ (Z.of_nat (capacity D) * D))
      by (apply Z.pow_le_mono_r; lia).
    pose proof (Addr_nonneg D (capacity D) ltac:(lia)).
    unfold SizeT.modulus. lia.
  - apply Addr_mono; lia.
Qed.

(** Once a level no longer fits, its whole contribution is a multiple of
    [2^64]: the wrapped value stops growing. *)
Lemma wrap_Addr_stationary D n :
  1 <= D -> (capacity D <= n)%nat ->
  SizeT.wrap (Addr D (S n)) = SizeT.wrap (Addr D n).
Proof.
  intros HD Hn.
  pose proof (capacity_spec D HD) as [Hc _].
  rewrite Addr_step by lia.
  replace (Z.of_nat n * D) with ((Z.of_nat n * D - SizeT.bits) + SizeT.bits) by lia.
  rewrite Z.pow_add_r by (unfold SizeT.bits in *; nia).
  unfold SizeT.wrap. fold SizeT.modulus.
  now rewrite Z.mod_add by (rewrite modulus_eq; lia).
Qed.

Lemma wrap_Addr_saturates D n :
  1 <= D -> SizeT.wrap (Addr D n) = Addr D (Nat.min n (capacity D)).
Proof.
  intros HD. induction n as [|n IH].
  - reflexivity.
  - destruct (Nat.le_gt_cases (S n) (capacity D)) as [Hle|Hgt].
    + rewrite Nat.min_l by assumption. apply wrap_small, Addr_fits; lia.
    + rewrite wrap_Addr_stationary by lia. rewrite IH.
      f_equal. lia.
Qed.

Lemma getOffset_saturates depth D :
  1 <= D < SizeT.bits ->
  getOffset depth D = Returns (Addr D (Nat.min (Z.to_nat depth) (capacity D))).
Proof.
  intros HD. rewrite getOffset_wrap by lia. now rewrite wrap_Addr_saturates by lia.
Qed.

(** Within capacity the code computes the recurrence exactly. *)
Lemma getOffset_exact depth D :
  1 <= D < SizeT.bits -> (Z.to_nat depth <= capacity D)%nat ->
  getOffset depth D = Returns (Addr D (Z.to_nat depth)).
Proof.
  intros HD Hc. rewrite getOffset_saturates by assumption.
  now rewrite Nat.min_l.
Qed.

(** Wrapping never makes a deeper boundary smaller than a shallower one. *)
Lemma getOffset_monotone D d1 d2 a1 a2 :
  1 <= D -> d1 <= d2 ->
  getOffset d1 D = Returns a1 -> getOffset d2 D = Returns a2 ->
  0 <= a1 <= a2 /\ a2 < SizeT.modulus.
Proof.
  intros HD Hd H1 H2.
  destruct (Z.lt_ge_cases D SizeT.bits) as [Hlt|Hge].
  - rewrite getOffset_saturates in H1, H2 by lia.
    injection H1 as <-. injection H2 as <-.
    split; [split|].
    + apply Addr_nonneg; lia.
    + apply Addr_mono; lia.
    + apply Addr_fits; lia.
  - destruct (Z.le_gt_cases d2 0) as [Hz|Hp].
    + unfold getOffset in H1, H2.
      replace (Z.to_nat d1) with O in H1 by lia.
      replace (Z.to_nat d2) with O in H2 by lia.
      cbn in H1, H2. injection H1 as <-. injection H2 as <-.
      rewrite modulus_eq. lia.
    + rewrite getOffset_undefined in H2 by lia. discriminate.
Qed.

(** ** Claims about the linear address function *)

(** C2, as the source has it.  For a dimensionality [1 <= D < 64],
    [getOffset 0 D = 0] and each further level applies
    [a |-> a * 2^D + 1] reduced modulo [2^64]; the step is the exact
    integer recurrence [Addr(i+1) = Addr(i) * 2^D + 1] whenever
    [Addr(i+1)] fits in 64 bits.  For dimensionality 2 the first
    boundaries are 0, 1, 5, 21, 85. *)
Theorem getOffset_recurrence (D i : Z) :
  1 <= D < SizeT.bits -> 0 <= i ->
  getOffset 0 D = Returns 0 /\
  (exists a, getOffset i D = Returns a /\
             getOffset (i + 1) D = Returns (SizeT.wrap (a * 2 ^ D + 1))) /\
  (Addr D (Z.to_nat (i + 1)) < SizeT.modulus ->
   getOffset i D = Returns (Addr D (Z.to_nat i)) /\
   getOffset (i + 1) D = Returns (Addr D (Z.to_nat i) * 2 ^ D + 1)) /\
  (getOffset 0 2 = Returns 0 /\ getOffset 1 2 = Returns 1 /\
   getOffset 2 2 = Returns 5 /\ getOffset 3 2 = Returns 21 /\
   getOffset 4 2 = Returns 85).
Proof.
  intros HD Hi.
  assert (Hsucc : Z.to_nat (i + 1) = S (Z.to_nat i)) by lia.
  split; [reflexivity|]. split; [|split].
  - exists (SizeT.wrap (Addr D (Z.to_nat i))). split.
    + apply getOffset_wrap; lia.
    + rewrite getOffset_wrap by lia. rewrite Hsucc. cbn [Addr].
      f_equal. symmetry. apply wrap_step.
  - intros Hfit.
    assert (Hcap : (S (Z.to_nat i) <= capacity D)%nat).
    { destruct (Nat.le_gt_cases (S (Z.to_nat i)) (capacity D)) as [H|H]; [exact H|].
      pose proof (Addr_overflows D (S (Z.to_nat i)) ltac:(lia) H).
      rewrite Hsucc in Hfit. lia. }
    split.
    + apply getOffset_exact; lia.
    + rewrite getOffset_exact by lia. now rewrite Hsucc.
  - repeat split; reflexivity.
Qed.

Lemma getOffset_recurrence_witness :
  getOffset 3 2 = Returns (Addr 2 (Z.to_nat 3)) /\
  getOffset (3 + 1) 2 = Returns (Addr 2 (Z.to_nat 3) * 2 ^ 2 + 1).
Proof.
  destruct (getOffset_recurrence 2 3) as (_ & _ & H & _).
  - unfold SizeT.bits. lia.
  - lia.
  - apply H. vm_compute. reflexivity.
Defined.

(** C2 as stated fails past the capacity of the index: for
    dimensionality 3 the boundary of depth 23 is not
    [Addr(22) * 2^3 + 1]. *)
Lemma getOffset_recurrence_breaks :
  getOffset 22 3 = Returns 10540996613548315209 /\
  getOffset 23 3 = Returns 10540996613548315209 /\
  10540996613548315209 * 2 ^ 3 + 1 <> 10540996613548315209.
Proof. repeat split; try reflexivity. lia. Qed.

(** C4, as the source has it.  [getOffset] has no overflow guard and
    never reports anything.  For [1 <= D < 64] it returns
    [Addr(depth)] reduced modulo [2^64]; the true boundary exceeds the
    index exactly when [depth > capacity D], and the value returned
    there is the last boundary that fitted.  For [D >= 64] and a
    positive depth the shift has undefined behaviour. *)
Theorem getOffset_unguarded (depth D : Z) :
  1 <= D -> 0 <= depth ->
  (forall e, getOffset depth D <> Throws e) /\
  (D < SizeT.bits ->
   getOffset depth D = Returns (SizeT.wrap (Addr D (Z.to_nat depth))) /\
   (SizeT.modulus <= Addr D (Z.to_nat depth) <-> Z.of_nat (capacity D) < depth) /\
   (Z.of_nat (capacity D) < depth ->
    getOffset depth D = Returns (Addr D (capacity D)))) /\
  (SizeT.bits <= D -> 0 < depth -> getOffset depth D = Undefined).
Proof.
  intros HD Hd. split; [|split].
  - intros e. apply getOffset_never_throws.
  - intros Hlt. split; [|split].
    + apply getOffset_wrap. lia.
    + split.
      * intros Hov.
        destruct (Z.lt_ge_cases (Z.of_nat (capacity D)) depth) as [H|H]; [exact H|].
        pose proof (Addr_fits D (Z.to_nat depth) HD ltac:(lia)) as [_ Hf]. lia.
      * intros Hc. apply Addr_overflows; lia.
    + intros Hc. rewrite getOffset_saturates by lia.
      now rewrite Nat.min_r by lia.
  - intros Hge Hpos. now apply getOffset_undefined.
Qed.

Lemma getOffset_unguarded_witness :
  getOffset 23 3 = Returns (Addr 3 (capacity 3)) /\
  getOffset 1 64 = Undefined.
Proof.
  split.
  - destruct (getOffset_unguarded 23 3) as (_ & H & _); [lia..|].
    destruct H as (_ & _ & H); [reflexivity|]. apply H. vm_compute. reflexivity.
  - destruct (getOffset_unguarded 1 64) as (_ & _ & H); [lia..|].
    apply H; [unfold SizeT.bits|]; lia.
Defined.

(** C4 as stated fails: at dimensionality 3 and depth 23 the true
    boundary needs more than 64 bits, yet a (wrapped) value is returned
    as if nothing had happened; and a dimensionality of 64 makes the
    very first shift undefined. *)
Lemma getOffset_wraps_silently :
  SizeT.modulus <= Addr 3 23 /\
  getOffset 23 3 = Returns 10540996613548315209 /\
  10540996613548315209 <> Addr 3 23 /\
  getOffset 1 64 = Undefined.
Proof. repeat split; try reflexivity; vm_compute; congruence. Qed.

(** ** Claims about [Branch] *)

Section BranchProperties.

Context {Schema : Type}.
Implicit Types (b : Branch.t Schema) (s : Schema).

Lemma make_inv s D db de b :
  Branch.make s D db de = Returns b ->
  getOffset db D = Returns (Branch.indexBegin b) /\
  getOffset de D = Returns (Branch.indexEnd b) /\
  Branch.depthBegin b = db /\ Branch.depthEnd b = de /\
  Branch.schema b = s.
Proof.
  unfold Branch.make. intros H.
  destruct (getOffset db D) as [ib| |]; cbn [bind] in H; try discriminate.
  destruct (getOffset de D) as [ie| |]; cbn [bind] in H; try discriminate.
  injection H as <-. repeat split.
Qed.

Lemma make_returns s D db de :
  0 <= D < SizeT.bits -> exists b, Branch.make s D db de = Returns b.
Proof.
  intros HD. unfold Branch.make.
  rewrite !getOffset_wrap by assumption. cbn [bind]. eauto.
Qed.

Lemma accepts_iff b index :
  Branch.accepts b index = true <->
  Branch.indexBegin b <= index < Branch.indexEnd b.
Proof.
  unfold Branch.accepts, Branch.indexBegin, Branch.indexEnd.
  rewrite andb_true_iff, Z.leb_le, Z.ltb_lt. reflexivity.
Qed.

Lemma size_exact b :
  0 <= Branch.indexBegin b <= Branch.indexEnd b ->
  Branch.indexEnd b < SizeT.modulus ->
  Branch.size b = Branch.indexEnd b - Branch.indexBegin b.
Proof.
  unfold Branch.size, Branch.indexBegin, Branch.indexEnd, SizeT.sub.
  intros H1 H2. apply wrap_small. unfold SizeT.in_range. lia.
Qed.

End BranchProperties.

(** C5, as the source has it.  Two branches built over [(d0, d1)] and
    [(d1, d2)] under one dimensionality meet at the address of [d1]: the
    first ends where the second begins, and that common bound is
    [getOffset d1 D], that is [Addr(d1)] reduced modulo [2^64]: [Addr(d1)]
    itself whenever [d1] is within the capacity of the index.  No index
    is accepted by both, and every index from the start of the first to
    the end of the second is accepted by one of them.  Both
    constructions succeed for any dimensionality below 64. *)
Theorem branch_chaining {Schema : Type} (s1 s2 : Schema) (D d0 d1 d2 : Z) :
  1 <= D -> 0 <= d0 < d1 -> d1 < d2 ->
  (forall b1 b2,
      Branch.make s1 D d0 d1 = Returns b1 ->
      Branch.make s2 D d1 d2 = Returns b2 ->
      Branch.indexEnd b1 = Branch.indexBegin b2 /\
      getOffset d1 D = Returns (Branch.indexEnd b1) /\
      (D < SizeT.bits ->
       Branch.indexEnd b1 = SizeT.wrap (Addr D (Z.to_nat d1)) /\
       Branch.indexBegin b2 = SizeT.wrap (Addr D (Z.to_nat d1))) /\
      (D < SizeT.bits -> d1 <= Z.of_nat (capacity D) ->
       Branch.indexEnd b1 = Addr D (Z.to_nat d1) /\
       Branch.indexBegin b2 = Addr D (Z.to_nat d1)) /\
      (forall i, Branch.accepts b1 i && Branch.accepts b2 i = false) /\
      (forall i, Branch.indexBegin b1 <= i < Branch.indexEnd b2 ->
                 Branch.accepts b1 i || Branch.accepts b2 i = true)) /\
  (D < SizeT.bits ->
   exists b1 b2, Branch.make s1 D d0 d1 = Returns b1 /\
                 Branch.make s2 D d1 d2 = Returns b2).
Proof.
  intros HD H01 H12. split.
  - intros b1 b2 M1 M2.
    apply make_inv in M1 as (_ & E1 & _). apply make_inv in M2 as (B2 & _ & _).
    assert (Heq : Branch.indexEnd b1 = Branch.indexBegin b2) by congruence.
    split; [exact Heq|]. split; [exact E1|]. split; [|split; [|split]].
    + intros Hbits. rewrite <- Heq.
      rewrite getOffset_wrap in E1 by lia. injection E1 as <-. auto.
    + intros Hbits Hcap. rewrite <- Heq.
      rewrite getOffset_exact in E1 by lia. injection E1 as <-. auto.
    + intros i. apply not_true_iff_false. rewrite andb_true_iff, !accepts_iff. lia.
    + intros i Hi. rewrite orb_true_iff, !accepts_iff. lia.
  - intros Hlt.
    destruct (make_returns s1 D d0 d1 ltac:(lia)) as [b1 M1].
    destruct (make_returns s2 D d1 d2 ltac:(lia)) as [b2 M2].
    eauto.
Qed.

Lemma branch_chaining_witness :
  exists b1 b2 : Branch.t unit,
    Branch.make tt 2 0 2 = Returns b1 /\ Branch.make tt 2 2 4 = Returns b2 /\
    Branch.indexEnd b1 = Branch.indexBegin b2 /\
    getOffset 2 2 = Returns (Branch.indexEnd b1) /\
    Branch.indexEnd b1 = Addr 2 (Z.to_nat 2).
Proof.
  destruct (branch_chaining tt tt 2 0 2 4) as [H _]; [lia..|].
  eexists _, _. split; [reflexivity|]. split; [reflexivity|].
  destruct (H _ _ eq_refl eq_refl) as (H1 & H2 & _ & H4 & _).
  split; [exact H1|]. split; [exact H2|].
  apply H4; [reflexivity|vm_compute; discriminate].
Defined.

(** C5 as stated fails past the capacity of the index: for
    dimensionality 3 the branches over depths (22, 23) and (23, 24) do
    meet, but at the wrapped value, not at [Addr(23)]. *)
Lemma branch_chaining_past_capacity :
  exists b1 b2 : Branch.t unit,
    Branch.make tt 3 22 23 = Returns b1 /\
    Branch.make tt 3 23 24 = Returns b2 /\
    Branch.indexEnd b1 = 10540996613548315209 /\
    Branch.indexBegin b2 = 10540996613548315209 /\
    Addr 3 23 = 84327972908386521673 /\
    Branch.indexEnd b1 <> Addr 3 23.
Proof.
  eexists _, _. split; [vm_compute; reflexivity|].
  split; [vm_compute; reflexivity|].
  split; [vm_compute; reflexivity|]. split; [vm_compute; reflexivity|].
  split; [vm_compute; reflexivity|]. vm_compute. congruence.
Qed.

(** C6, as the source has it.  For every constructed Branch,
    [accepts(index)] holds exactly when [indexBegin <= index < indexEnd],
    the index bounds are the addresses of the depth bounds, and [size()]
    is [indexEnd - indexBegin] reduced modulo [2^64]: the plain
    difference whenever [depthBegin <= depthEnd], even past the depth at
    which the addresses wrap. *)
Theorem branch_accepts_size {Schema : Type} (s : Schema) (D db de : Z)
    (b : Branch.t Schema) :
  Branch.make s D db de = Returns b ->
  (forall index, Branch.accepts b index = true <->
                 Branch.indexBegin b <= index < Branch.indexEnd b) /\
  getOffset db D = Returns (Branch.indexBegin b) /\
  getOffset de D = Returns (Branch.indexEnd b) /\
  Branch.size b = SizeT.wrap (Branch.indexEnd b - Branch.indexBegin b) /\
  (1 <= D -> db <= de ->
   Branch.size b = Branch.indexEnd b - Branch.indexBegin b).
Proof.
  intros M. pose proof (make_inv _ _ _ _ _ M) as (HB & HE & _).
  split; [intros index; apply accepts_iff|].
  split; [exact HB|]. split; [exact HE|]. split; [reflexivity|].
  intros HD Hle.
  destruct (getOffset_monotone D db de _ _ HD Hle HB HE) as [H1 H2].
  apply size_exact; lia.
Qed.

Lemma branch_accepts_size_witness :
  exists b : Branch.t unit,
    Branch.make tt 2 2 4 = Returns b /\
    Branch.size b = Branch.indexEnd b - Branch.indexBegin b /\
    Branch.size b = 80.
Proof.
  eexists. split; [reflexivity|].
  destruct (branch_accepts_size tt 2 2 4 _ eq_refl) as (_ & _ & _ & _ & H).
  split; [apply H; lia|reflexivity].
Defined.

(** C6 as stated fails when the depth bounds are given in decreasing
    order: the constructor accepts them and [size()] wraps. *)
Lemma branch_size_wraps :
  exists b : Branch.t unit,
    Branch.make tt 2 2 1 = Returns b /\
    Branch.indexBegin b = 5 /\ Branch.indexEnd b = 1 /\
    Branch.size b = 18446744073709551612 /\
    Branch.size b <> Branch.indexEnd b - Branch.indexBegin b.
Proof.
  eexists. split; [reflexivity|]. repeat split. vm_compute. congruence.
Qed.

(** ** Metadata members *)

Lemma lookup_update_eq key x members :
  Json.lookup key (Json.update key x members) = Some x.
Proof.
  induction members as [|[k v] rest IH]; cbn [Json.update Json.lookup].
  - now rewrite String.eqb_refl.
  - destruct (String.eqb k key) eqn:E; cbn [Json.lookup]; rewrite E; auto.
Qed.

Lemma lookup_update_ne key key' x members :
  key <> key' ->
  Json.lookup key' (Json.update key x members) = Json.lookup key' members.
Proof.
  intros Hne. induction members as [|[k v] rest IH]; cbn [Json.update Json.lookup].
  - now apply String.eqb_neq in Hne as ->.
  - destruct (String.eqb k key) eqn:E; cbn [Json.lookup].
    + apply String.eqb_eq in E as ->. now apply String.eqb_neq in Hne as ->.
    + now rewrite IH.
Qed.

Lemma get_set_eq v key x v' :
  Json.set v key x = Returns v' -> Json.get v' key = Returns x.
Proof.
  destruct v; cbn [Json.set]; intros E; try discriminate; injection E as <-;
    cbn [Json.get].
  - cbn [Json.lookup]. now rewrite String.eqb_refl.
  - now rewrite lookup_update_eq.
Qed.

Lemma get_set_ne v key key' x v' :
  Json.set v key x = Returns v' -> key <> key' ->
  Json.get v' key' = Json.get v key'.
Proof.
  destruct v; cbn [Json.set]; intros E Hne; try discriminate; injection E as <-;
    cbn [Json.get].
  - cbn [Json.lookup]. now apply String.eqb_neq in Hne as ->.
  - now rewrite lookup_update_ne.
Qed.

Section BranchPersistence.

Context {Schema : Type}.
Implicit Types (b : Branch.t Schema) (s : Schema).

Lemma save_bounds_inv b meta m :
  Branch.save_bounds b meta = Returns m ->
  Json.get m "depthBegin" = Returns (Json.UInt (Branch.depthBegin b)) /\
  Json.get m "depthEnd" = Returns (Json.UInt (Branch.depthEnd b)) /\
  (forall key, key <> "depthBegin"%string -> key <> "depthEnd"%string ->
               Json.get m key = Json.get meta key).
Proof.
  unfold Branch.save_bounds. intros E.
  destruct (Json.set meta "depthBegin" _) as [m1| |] eqn:E1;
    cbn [bind] in E; try discriminate.
  split; [|split].
  - rewrite (get_set_ne _ _ "depthBegin" _ _ E) by discriminate.
    apply (get_set_eq _ _ _ _ E1).
  - apply (get_set_eq _ _ _ _ E).
  - intros key H1 H2.
    rewrite (get_set_ne _ _ key _ _ E) by congruence.
    apply (get_set_ne _ _ key _ _ E1). congruence.
Qed.

(** Reading a branch back needs the two depth members and nothing else. *)
Lemma from_meta_of_bounds s D db de b m :
  Branch.make s D db de = Returns b ->
  Json.get m "depthBegin" = Returns (Json.UInt db) ->
  Json.get m "depthEnd" = Returns (Json.UInt de) ->
  Branch.from_meta s D m = Returns b.
Proof.
  intros M HB HE. unfold Branch.from_meta. rewrite HB, HE. cbn [bind Json.asUInt64].
  exact M.
Qed.

End BranchPersistence.

(** C7.  [Branch::save] stores the two depth bounds in the metadata node
    it is given (a null or object node), changes no other member, writes
    the same node whatever the index bounds of the branch are, and then
    hands that node to its tier.  A branch read back from the node under
    the same dimensionality is the branch that was saved, index bounds
    included, these being derived again by [getOffset]; the same holds
    for the node the tier hands back as long as the tier leaves the two
    depth members alone. *)
Theorem branch_save_roundtrip {Schema : Type} {T : Branch.Tier Schema}
    (s : Schema) (D db de : Z) (b : Branch.t Schema)
    (path : string) (meta : Json.Value) (fs : FS.t) :
  Branch.make s D db de = Returns b ->
  (meta = Json.Null \/ (exists members, meta = Json.Object members) ->
   exists m, Branch.save_bounds b meta = Returns m) /\
  (forall m,
      Branch.save_bounds b meta = Returns m ->
      Json.get m "depthBegin" = Returns (Json.UInt db) /\
      Json.get m "depthEnd" = Returns (Json.UInt de) /\
      (forall key, key <> "depthBegin"%string -> key <> "depthEnd"%string ->
                   Json.get m key = Json.get meta key) /\
      (forall b' : Branch.t Schema,
          Branch.depthBegin b' = db -> Branch.depthEnd b' = de ->
          Branch.save_bounds b' meta = Returns m) /\
      Branch.save b path meta fs = Branch.saveImpl b path m fs /\
      Branch.from_meta s D m = Returns b /\
      (forall meta' fs',
          Branch.save b path meta fs = Returns (meta', fs') ->
          Json.get meta' "depthBegin" = Json.get m "depthBegin" ->
          Json.get meta' "depthEnd" = Json.get m "depthEnd" ->
          Branch.from_meta s D meta' = Returns b)).
Proof.
  intros M.
  pose proof (make_inv _ _ _ _ _ M) as (_ & _ & Hdb & Hde & _).
  split.
  - intros [->|[members ->]]; unfold Branch.save_bounds; cbn; eauto.
  - intros m Em.
    pose proof (save_bounds_inv _ _ _ Em) as (HB & HE & Hother).
    rewrite Hdb in HB. rewrite Hde in HE.
    repeat split; try assumption.
    + intros b' Hb He. rewrite <- Em. unfold Branch.save_bounds.
      unfold Branch.depthBegin, Branch.depthEnd in *. now rewrite Hb, He, Hdb, Hde.
    + unfold Branch.save. now rewrite Em.
    + now apply (from_meta_of_bounds s D db de).
    + intros meta' fs' _ KB KE. apply (from_meta_of_bounds s D db de); congruence.
Qed.

Lemma branch_save_roundtrip_witness :
  exists (b : Branch.t unit) meta',
    Branch.make tt 2 2 4 = Returns b /\
    Branch.save b "out" Json.Null Reference.no_files
      = Returns (meta', Reference.no_files) /\
    Branch.from_meta tt 2 meta' = Returns b.
Proof.
  eexists _, _. split; [reflexivity|]. split; [reflexivity|].
  destruct (branch_save_roundtrip (T := Reference.resident) tt 2 2 4 _ "out"
              Json.Null Reference.no_files eq_refl)
    as [_ H].
  destruct (H _ eq_refl) as (HB & HE & _ & _ & _ & _ & R).
  apply (R _ _ eq_refl); reflexivity.
Defined.

(** ** The facade: [insert] *)

Section Insert.

Context {C : Collaborators}.
Implicit Types (tree : SleepyTree.t) (pointBuffer : PointBuffer).

Lemma insert_sample_outside tree pointBuffer origin i bbox :
  SleepyTree.m_bbox tree = Some bbox ->
  BBox_contains bbox (SleepyTree.sample_point pointBuffer i) = false ->
  SleepyTree.insert_sample pointBuffer origin i tree = Returns tree.
Proof.
  intros Hb Hc. unfold SleepyTree.insert_sample. rewrite Hb. cbn [deref bind].
  now rewrite Hc.
Qed.

Lemma insert_sample_inside tree pointBuffer origin i bbox schema registry :
  SleepyTree.m_bbox tree = Some bbox ->
  SleepyTree.m_schema tree = Some schema ->
  SleepyTree.m_registry tree = Some registry ->
  BBox_contains bbox (SleepyTree.sample_point pointBuffer i) = true ->
  SleepyTree.insert_sample pointBuffer origin i tree =
  (do placed <-
     Registry_put registry
       (mkPointInfo (Schema_pointContext schema) pointBuffer i origin)
       (Roller_make bbox);
   Returns (SleepyTree.mk (SleepyTree.m_dir tree) (Some bbox) (Some schema)
              (SizeT.add (SleepyTree.numPoints tree) 1) (Some placed))).
Proof.
  intros Hb Hs Hr Hc. unfold SleepyTree.insert_sample.
  rewrite Hb, Hs, Hr. cbn [deref bind]. now rewrite Hc.
Qed.

(** The counter after [k] accepted samples. *)
Lemma counter_iter k n :
  SizeT.in_range n ->
  Nat.iter k (fun c => SizeT.add c 1) n = SizeT.wrap (n + Z.of_nat k).
Proof.
  intros Hn. induction k as [|k IH].
  - change (Nat.iter 0 (fun c => SizeT.add c 1) n) with n.
    rewrite Z.add_0_r. symmetry. now apply wrap_small.
  - rewrite Nat.iter_succ, IH. unfold SizeT.add, SizeT.wrap.
    rewrite Z.add_mod_idemp_l by (rewrite modulus_eq; lia).
    f_equal. lia.
Qed.

Lemma insert_loop_spec pointBuffer origin bbox schema samples :
  forall tree registry tree',
    SleepyTree.m_bbox tree = Some bbox ->
    SleepyTree.m_schema tree = Some schema ->
    SleepyTree.m_registry tree = Some registry ->
    SleepyTree.insert_loop pointBuffer origin samples tree = Returns tree' ->
    let accepted :=
      List.filter
        (fun i => BBox_contains bbox (SleepyTree.sample_point pointBuffer i))
        samples in
    exists placed,
      SleepyTree.put_all bbox (Schema_pointContext schema) pointBuffer origin
                         accepted registry = Returns placed /\
      tree' = SleepyTree.mk (SleepyTree.m_dir tree) (Some bbox) (Some schema)
                (Nat.iter (List.length accepted) (fun c => SizeT.add c 1)
                          (SleepyTree.numPoints tree))
                (Some placed).
Proof.
  induction samples as [|i rest IH]; intros tree registry tree' Hb Hs Hr E;
    cbn [SleepyTree.insert_loop] in E.
  - injection E as <-. exists registry. split; [reflexivity|].
    destruct tree; cbn in *. now subst.
  - cbn [List.filter].
    destruct (BBox_contains bbox (SleepyTree.sample_point pointBuffer i)) eqn:Hc.
    + rewrite (insert_sample_inside _ _ _ _ _ _ _ Hb Hs Hr Hc) in E.
      cbn [SleepyTree.put_all].
      destruct (Registry_put registry _ _) as [r1| |]; cbn [bind] in E |- *;
        try discriminate.
      apply IH with (registry := r1) in E; [|reflexivity..].
      destruct E as (placed & P & ->).
      exists placed. split; [exact P|].
      cbn [SleepyTree.m_dir SleepyTree.numPoints SleepyTree.m_numPoints List.length].
      now rewrite Nat.iter_succ_r.
    + rewrite (insert_sample_outside _ _ _ _ _ Hb Hc) in E. cbn [bind] in E.
      exact (IH _ _ _ Hb Hs Hr E).
Qed.

Lemma insert_loop_returns pointBuffer origin samples :
  (forall registry info roller,
      exists placed, Registry_put registry info roller = Returns placed) ->
  forall tree bbox schema registry,
    SleepyTree.m_bbox tree = Some bbox ->
    SleepyTree.m_schema tree = Some schema ->
    SleepyTree.m_registry tree = Some registry ->
    exists tree', SleepyTree.insert_loop pointBuffer origin samples tree
                  = Returns tree'.
Proof.
  intros Hput. induction samples as [|i rest IH];
    intros tree bbox schema registry Hb Hs Hr; cbn [SleepyTree.insert_loop].
  - eauto.
  - destruct (BBox_contains bbox (SleepyTree.sample_point pointBuffer i)) eqn:Hc.
    + rewrite (insert_sample_inside _ _ _ _ _ _ _ Hb Hs Hr Hc).
      destruct (Hput registry
                  (mkPointInfo (Schema_pointContext schema) pointBuffer i origin)
                  (Roller_make bbox)) as [r1 ->].
      cbn [bind]. now apply (IH _ bbox schema r1).
    + rewrite (insert_sample_outside _ _ _ _ _ Hb Hc). cbn [bind].
      now apply (IH _ bbox schema registry).
Qed.

End Insert.

(** C3.  On a tree whose bounding box, schema and Registry are set:
    a sample outside the root bounding box leaves the tree as it is;
    a sample inside is handed to the Registry as a PointInfo carrying
    the buffer, the sample's index and the given origin, with a Roller
    made from the root bounding box, and the counter goes up by one.
    When [insert] returns, the Registry has received exactly the
    contained samples, in order, the bounds are unchanged and
    [numPoints()] is its prior value plus the number of contained
    samples (as a 64-bit counter: exactly that sum while it is below
    [2^64]).  [insert] returns whenever the Registry's [put] does. *)
Theorem insert_counts_contained {C : Collaborators}
    (tree : SleepyTree.t) (pointBuffer : PointBuffer) (origin : Z)
    (bbox : BBox) (schema : Schema) (registry : Registry) :
  SleepyTree.m_bbox tree = Some bbox ->
  SleepyTree.m_schema tree = Some schema ->
  SleepyTree.m_registry tree = Some registry ->
  SizeT.in_range (SleepyTree.numPoints tree) ->
  (forall i,
      BBox_contains bbox (SleepyTree.sample_point pointBuffer i) = false ->
      SleepyTree.insert_sample pointBuffer origin i tree = Returns tree) /\
  (forall i,
      BBox_contains bbox (SleepyTree.sample_point pointBuffer i) = true ->
      SleepyTree.insert_sample pointBuffer origin i tree =
      (do placed <-
         Registry_put registry
           (mkPointInfo (Schema_pointContext schema) pointBuffer i origin)
           (Roller_make bbox);
       Returns (SleepyTree.mk (SleepyTree.m_dir tree) (Some bbox) (Some schema)
                  (SizeT.add (SleepyTree.numPoints tree) 1) (Some placed)))) /\
  (forall tree',
      SleepyTree.insert tree pointBuffer origin = Returns tree' ->
      let n := Z.of_nat (List.length (SleepyTree.contained bbox pointBuffer)) in
      SleepyTree.numPoints tree' = SizeT.wrap (SleepyTree.numPoints tree + n) /\
      (SleepyTree.numPoints tree + n < SizeT.modulus ->
       SleepyTree.numPoints tree' = SleepyTree.numPoints tree + n) /\
      SleepyTree.getBounds tree' = Returns bbox /\
      exists placed,
        SleepyTree.put_all bbox (Schema_pointContext schema) pointBuffer origin
          (SleepyTree.contained bbox pointBuffer) registry = Returns placed /\
        SleepyTree.m_registry tree' = Some placed) /\
  ((forall r info roller,
       exists placed, Registry_put r info roller = Returns placed) ->
   exists tree', SleepyTree.insert tree pointBuffer origin = Returns tree').
Proof.
  intros Hb Hs Hr Hn. split; [|split; [|split]].
  - intros i. now apply insert_sample_outside.
  - intros i. now apply insert_sample_inside.
  - intros tree' E. unfold SleepyTree.insert in E.
    destruct (insert_loop_spec _ _ _ _ _ _ _ _ Hb Hs Hr E) as (placed & P & ->).
    fold (SleepyTree.contained bbox pointBuffer) in *.
    cbn [SleepyTree.numPoints SleepyTree.m_numPoints SleepyTree.getBounds
         SleepyTree.m_bbox SleepyTree.m_registry deref].
    fold (SleepyTree.numPoints tree).
    rewrite counter_iter by assumption.
    split; [reflexivity|]. split.
    + intros Hlt. apply wrap_small. unfold SizeT.in_range in *. lia.
    + split; [reflexivity|]. eauto.
  - intros Hput. unfold SleepyTree.insert.
    now apply (insert_loop_returns _ _ _ Hput tree bbox schema registry).
Qed.

Lemma insert_counts_contained_witness :
  exists tree' : SleepyTree.t,
    SleepyTree.insert (Reference.tree_at 5) Reference.three_samples 7
      = Returns tree' /\
    SleepyTree.numPoints tree' = 5 + 2.
Proof.
  eexists. split; [reflexivity|].
  destruct (insert_counts_contained (Reference.tree_at 5)
              Reference.three_samples 7 Reference.unit_square tt []
              eq_refl eq_refl eq_refl)
    as (_ & _ & Hall & _).
  - unfold SizeT.in_range, SleepyTree.numPoints, Reference.tree_at.
    cbn [SleepyTree.m_numPoints]. rewrite modulus_eq. lia.
  - destruct (Hall _ eq_refl) as (_ & Hexact & _).
    apply Hexact. vm_compute. reflexivity.
Defined.

(** ** The facade: [save] and [load] *)

Section Streams.

Implicit Types (fs : FS.t) (path data : string).

Lemma ifstream_open_None fs path :
  FS.ifstream_open fs path = None <->
  FS.files fs !! path = None \/ path ∈ FS.denied fs.
Proof.
  unfold FS.ifstream_open. destruct (decide (path ∈ FS.denied fs)); split; auto.
  intros [?|?]; [assumption|contradiction].
Qed.

Lemma ofstream_open_trunc_denied fs path :
  path ∈ FS.denied fs -> FS.ofstream_open_trunc fs path = None.
Proof.
  intros Hd. unfold FS.ofstream_open_trunc.
  destruct (decide (path ∈ FS.denied fs)); [reflexivity|contradiction].
Qed.

Lemma ofstream_open_trunc_allowed fs path :
  path ∉ FS.denied fs ->
  FS.ofstream_open_trunc fs path =
  Some (FS.mk (<[path := EmptyString]> (FS.files fs)) (FS.denied fs) (FS.full fs)).
Proof.
  intros Hd. unfold FS.ofstream_open_trunc.
  destruct (decide (path ∈ FS.denied fs)); [contradiction|reflexivity].
Qed.

Lemma ofstream_open_trunc_inv fs path fs' :
  FS.ofstream_open_trunc fs path = Some fs' ->
  (path ∉ FS.denied fs) /\
  fs' = FS.mk (<[path := EmptyString]> (FS.files fs)) (FS.denied fs) (FS.full fs).
Proof.
  unfold FS.ofstream_open_trunc.
  destruct (decide (path ∈ FS.denied fs)); [discriminate|].
  intros E. injection E as <-. auto.
Qed.

(** What a file opened with truncation holds after one write. *)
Lemma written_content fs path data :
  FS.full fs = false ->
  FS.files
    (FS.ofstream_write
       (FS.mk (<[path := EmptyString]> (FS.files fs)) (FS.denied fs) (FS.full fs))
       path data) !! path = Some data.
Proof.
  intros Hf. unfold FS.ofstream_write. cbn [FS.full FS.files FS.denied].
  rewrite Hf. cbn [FS.files]. rewrite lookup_insert_eq.
  now rewrite lookup_insert_eq.
Qed.

Lemma written_elsewhere fs path data other :
  other <> path ->
  FS.files
    (FS.ofstream_write
       (FS.mk (<[path := EmptyString]> (FS.files fs)) (FS.denied fs) (FS.full fs))
       path data) !! other = FS.files fs !! other.
Proof.
  intros Hne. unfold FS.ofstream_write. cbn [FS.full FS.files FS.denied].
  destruct (FS.full fs); cbn [FS.files]; now rewrite !lookup_insert_ne by congruence.
Qed.

Lemma written_denied fs path data :
  FS.denied
    (FS.ofstream_write
       (FS.mk (<[path := EmptyString]> (FS.files fs)) (FS.denied fs) (FS.full fs))
       path data) = FS.denied fs.
Proof.
  unfold FS.ofstream_write. cbn [FS.full FS.files FS.denied].
  now destruct (FS.full fs).
Qed.

End Streams.

Section Persistence.

Context {C : Collaborators}.
Implicit Types (tree : SleepyTree.t) (fs : FS.t).

(** The document [save] assembles has exactly three members. *)
Lemma save_document_shape tree fs registry' doc fs1 :
  SleepyTree.save_document tree fs = Returns (registry', doc, fs1) ->
  exists bbox schema registry sub,
    SleepyTree.m_bbox tree = Some bbox /\
    SleepyTree.m_schema tree = Some schema /\
    SleepyTree.m_registry tree = Some registry /\
    Registry_save registry (SleepyTree.m_dir tree) Json.Null fs
      = Returns (registry', sub, fs1) /\
    doc = Json.Object [("bbox", BBox_toJson bbox);
                       ("schema", Schema_toJson schema);
                       ("registry", sub)]%string.
Proof.
  unfold SleepyTree.save_document, SleepyTree.addMeta. intros E.
  destruct (SleepyTree.m_bbox tree) as [bbox|]; [|discriminate].
  destruct (SleepyTree.m_schema tree) as [schema|]; [|discriminate].
  destruct (SleepyTree.m_registry tree) as [registry|]; [|discriminate].
  cbn in E. bind_inv E as [[r sub] f]. cbn in E.
  injection E as <- <- <-.
  exists bbox, schema, registry, sub. repeat split. exact E0.
Qed.

Lemma save_inv tree fs tree' fs' :
  SleepyTree.save tree fs = Returns (tree', fs') ->
  exists registry' doc fs1,
    SleepyTree.save_document tree fs = Returns (registry', doc, fs1) /\
    (SleepyTree.metaPath tree ∉ FS.denied fs1) /\
    tree' = SleepyTree.mk (SleepyTree.m_dir tree) (SleepyTree.m_bbox tree)
              (SleepyTree.m_schema tree) (SleepyTree.m_numPoints tree)
              (Some registry') /\
    fs' = FS.ofstream_write
            (FS.mk (<[SleepyTree.metaPath tree := EmptyString]> (FS.files fs1))
                   (FS.denied fs1) (FS.full fs1))
            (SleepyTree.metaPath tree) (toStyledString doc).
Proof.
  unfold SleepyTree.save. intros E. bind_inv E as [[r doc] fs1].
  destruct (FS.ofstream_open_trunc fs1 (SleepyTree.metaPath tree)) as [fs2|] eqn:O;
    [|discriminate].
  apply ofstream_open_trunc_inv in O as [Hd ->].
  injection E as <- <-. exists r, doc, fs1. auto.
Qed.

Lemma load_inv tree fs tree' :
  SleepyTree.load tree fs = Returns tree' ->
  exists content jBBox bbox,
    FS.ifstream_open fs (SleepyTree.metaPath tree) = Some content /\
    Json.get (snd (Reader_parse content)) "bbox" = Returns jBBox /\
    BBox_fromJson jBBox = Returns bbox /\
    SleepyTree.m_bbox tree' = Some bbox /\
    SleepyTree.m_dir tree' = SleepyTree.m_dir tree /\
    SleepyTree.m_numPoints tree' = SleepyTree.m_numPoints tree.
Proof.
  unfold SleepyTree.load. intros E.
  destruct (FS.ifstream_open fs (SleepyTree.metaPath tree)) as [content|];
    [|discriminate].
  bind_inv E as jBBox. bind_inv E as bbox. do 12 (bind_inv E as ?).
  injection E as <-.
  exists content, jBBox, bbox. repeat split; assumption.
Qed.

Lemma load_unopened tree fs :
  FS.ifstream_open fs (SleepyTree.metaPath tree) = None ->
  SleepyTree.load tree fs = Throws (SleepyTree.could_not_open tree).
Proof. intros E. unfold SleepyTree.load. now rewrite E. Qed.

Lemma save_ignores_counter tree n fs :
  SleepyTree.save (SleepyTree.with_numPoints tree n) fs =
  (do (tree', fs') <- SleepyTree.save tree fs;
   Returns (SleepyTree.with_numPoints tree' n, fs')).
Proof.
  unfold SleepyTree.save.
  change (SleepyTree.save_document (SleepyTree.with_numPoints tree n) fs)
    with (SleepyTree.save_document tree fs).
  destruct (SleepyTree.save_document tree fs) as [[[r doc] fs1]| |];
    cbn [bind]; try reflexivity.
  change (SleepyTree.metaPath (SleepyTree.with_numPoints tree n))
    with (SleepyTree.metaPath tree).
  now destruct (FS.ofstream_open_trunc fs1 (SleepyTree.metaPath tree)).
Qed.

(** Opening the directory a tree was just saved into.  The document
    has no ["tree"] member, so the three tier depths are read from null
    values: the Registry of the reopened tree is made with depths 0, 0
    and 0, whatever depths the saved tree was made with. *)
Lemma reopen_after_save tree fs bbox schema registry registry' sub fs1 :
  SleepyTree.m_bbox tree = Some bbox ->
  SleepyTree.m_schema tree = Some schema ->
  SleepyTree.m_registry tree = Some registry ->
  Registry_save registry (SleepyTree.m_dir tree) Json.Null fs
    = Returns (registry', sub, fs1) ->
  SleepyTree.metaPath tree ∉ FS.denied fs1 ->
  FS.full fs1 = false ->
  let doc := Json.Object [("bbox", BBox_toJson bbox);
                          ("schema", Schema_toJson schema);
                          ("registry", sub)]%string in
  snd (Reader_parse (toStyledString doc)) = doc ->
  exists tree' fs',
    SleepyTree.save tree fs = Returns (tree', fs') /\
    SleepyTree.open (SleepyTree.dir tree) fs' =
    (do bbox' <- BBox_fromJson (BBox_toJson bbox);
     do schema' <- Schema_fromJson (Schema_toJson schema);
     do made <- Registry_make schema' 0 0 0;
     do loaded <- Registry_load made (SleepyTree.dir tree) sub fs';
     Returns (SleepyTree.mk (SleepyTree.dir tree) (Some bbox') (Some schema')
                            0 (Some loaded))).
Proof.
  intros Hb Hs Hr Hsave Hd Hroom doc Htext.
  assert (D : SleepyTree.save_document tree fs = Returns (registry', doc, fs1)).
  { unfold SleepyTree.save_document, SleepyTree.addMeta.
    rewrite Hb, Hs, Hr. cbn. rewrite Hsave. reflexivity. }
  eexists _, _. split.
  - unfold SleepyTree.save. rewrite D. cbn [bind].
    rewrite ofstream_open_trunc_allowed by assumption. reflexivity.
  - unfold SleepyTree.open, SleepyTree.load.
    change (SleepyTree.metaPath
              (SleepyTree.mk (SleepyTree.dir tree) None None 0 None))
      with (SleepyTree.metaPath tree).
    unfold FS.ifstream_open. rewrite written_denied.
    destruct (decide (SleepyTree.metaPath tree ∈ FS.denied fs1)); [contradiction|].
    rewrite written_content by assumption.
    rewrite Htext. reflexivity.
Qed.

End Persistence.

(** ** Claims about persistence *)

(** C10.  The counter is not part of what is persisted.  A tree made by
    the one-argument constructor has [numPoints() = 0], whatever the
    directory holds; [load] and [save] return a tree with the counter
    they were given; and what [save] leaves on disk is the same for
    every value of the counter. *)
Theorem counter_not_persisted {C : Collaborators} :
  (forall dir fs tree,
      SleepyTree.open dir fs = Returns tree -> SleepyTree.numPoints tree = 0) /\
  (forall tree fs tree',
      SleepyTree.load tree fs = Returns tree' ->
      SleepyTree.numPoints tree' = SleepyTree.numPoints tree) /\
  (forall tree fs tree' fs',
      SleepyTree.save tree fs = Returns (tree', fs') ->
      SleepyTree.numPoints tree' = SleepyTree.numPoints tree) /\
  (forall tree n fs,
      SleepyTree.save (SleepyTree.with_numPoints tree n) fs =
      (do (tree', fs') <- SleepyTree.save tree fs;
       Returns (SleepyTree.with_numPoints tree' n, fs'))).
Proof.
  split; [|split; [|split]].
  - intros dir fs tree E. unfold SleepyTree.open in E.
    apply load_inv in E as (_ & _ & _ & _ & _ & _ & _ & _ & E). exact E.
  - intros tree fs tree' E.
    apply load_inv in E as (_ & _ & _ & _ & _ & _ & _ & _ & E). exact E.
  - intros tree fs tree' fs' E.
    apply save_inv in E as (r & doc & fs1 & _ & _ & -> & _). reflexivity.
  - intros tree n fs. apply save_ignores_counter.
Qed.

Lemma counter_not_persisted_witness :
  SleepyTree.insert (Reference.tree_at 0) Reference.three_samples 7
    = Returns Reference.two_points /\
  SleepyTree.numPoints Reference.two_points = 2 /\
  SleepyTree.save Reference.two_points Reference.no_files
    = Returns (Reference.two_points, Reference.saved) /\
  SleepyTree.open "out" Reference.saved = Returns (Reference.tree_at 0) /\
  SleepyTree.numPoints (Reference.tree_at 0) = 0.
Proof.
  assert (O : SleepyTree.open "out" Reference.saved = Returns (Reference.tree_at 0))
    by (vm_compute; reflexivity).
  split; [reflexivity|]. split; [reflexivity|].
  split; [vm_compute; reflexivity|]. split; [exact O|].
  destruct (counter_not_persisted (C := Reference.collaborators)) as (H & _).
  exact (H _ _ _ O).
Defined.

(** C9.  When the metadata file does not exist or cannot be opened,
    [load] throws a [runtime_error] that names the path, and so does the
    constructor that loads: no tree is produced. *)
Theorem load_fails_without_metadata {C : Collaborators}
    (tree : SleepyTree.t) (fs : FS.t) :
  FS.files fs !! SleepyTree.metaPath tree = None \/
  SleepyTree.metaPath tree ∈ FS.denied fs ->
  SleepyTree.metaPath tree = (SleepyTree.dir tree ++ "/meta")%string /\
  SleepyTree.load tree fs =
    Throws (runtime_error ("Could not open " ++ SleepyTree.dir tree ++ "/meta")) /\
  SleepyTree.open (SleepyTree.dir tree) fs =
    Throws (runtime_error ("Could not open " ++ SleepyTree.dir tree ++ "/meta")).
Proof.
  intros Hmissing. apply ifstream_open_None in Hmissing.
  split; [reflexivity|]. split.
  - now apply load_unopened.
  - unfold SleepyTree.open. now apply load_unopened.
Qed.

Lemma load_fails_without_metadata_witness :
  SleepyTree.load (Reference.tree_at 0) Reference.no_files =
    Throws (runtime_error "Could not open out/meta") /\
  SleepyTree.open "out" Reference.no_files =
    Throws (runtime_error "Could not open out/meta").
Proof.
  destruct (load_fails_without_metadata (Reference.tree_at 0) Reference.no_files)
    as (_ & H1 & H2).
  - left. vm_compute. reflexivity.
  - split; [exact H1|exact H2].
Defined.

(** C9 as stated fails for metadata that cannot be read as a document:
    the file opens, the reader reports failure and leaves a null
    document, and [load] goes on; with a bounding box that reads null
    as the zero box and a Registry that loads nothing from null, the
    constructor returns a tree. *)
Lemma load_accepts_unparsed :
  FS.ifstream_open Durable.garbled "out/meta" = Some "not a document"%string /\
  Reader_parse (Collaborators := Durable.collaborators) "not a document"
    = (false, Json.Null) /\
  SleepyTree.open (C := Durable.collaborators) "out" Durable.garbled
    = Returns (SleepyTree.mk (C := Durable.collaborators) "out"
                 (Some (Reference.mkRect 0 0 0 0)) (Some tt) 0 (Some [])).
Proof. repeat split; vm_compute; reflexivity. Qed.

(** C8, as the source has it.  [save] writes the document in place:
    it opens [<dir>/meta] with truncation and writes the styled document
    into that file, leaving every other file as the Registry left it.
    When the file cannot be opened [save] throws a [runtime_error] that
    names the path.  Cut short after the file was opened, it leaves a
    prefix of the new document there, whatever the file held before. *)
Theorem save_in_place {C : Collaborators} (tree : SleepyTree.t) (fs fs1 : FS.t)
    (registry : Registry) (doc : Json.Value) :
  SleepyTree.save_document tree fs = Returns (registry, doc, fs1) ->
  SleepyTree.metaPath tree = (SleepyTree.dir tree ++ "/meta")%string /\
  (SleepyTree.metaPath tree ∈ FS.denied fs1 ->
   SleepyTree.save tree fs =
     Throws (runtime_error ("Could not open " ++ SleepyTree.dir tree ++ "/meta"))) /\
  (SleepyTree.metaPath tree ∉ FS.denied fs1 ->
   (exists tree' fs',
       SleepyTree.save tree fs = Returns (tree', fs') /\
       (FS.full fs1 = false ->
        FS.files fs' !! SleepyTree.metaPath tree = Some (toStyledString doc)) /\
       (forall other, other <> SleepyTree.metaPath tree ->
                      FS.files fs' !! other = FS.files fs1 !! other)) /\
   (forall n, exists fs',
       SleepyTree.save_interrupted tree fs n = Returns fs' /\
       (FS.full fs1 = false ->
        FS.files fs' !! SleepyTree.metaPath tree
          = Some (substring 0 n (toStyledString doc))))).
Proof.
  intros D. split; [reflexivity|]. split.
  - intros Hd. unfold SleepyTree.save. rewrite D. cbn [bind].
    now rewrite ofstream_open_trunc_denied.
  - intros Hd. split.
    + eexists _, _. split.
      * unfold SleepyTree.save. rewrite D. cbn [bind].
        rewrite ofstream_open_trunc_allowed by assumption. reflexivity.
      * split.
        -- intros Hf. now apply written_content.
        -- intros other Hne. now apply written_elsewhere.
    + intros n. eexists. split.
      * unfold SleepyTree.save_interrupted. rewrite D. cbn [bind].
        rewrite ofstream_open_trunc_allowed by assumption. reflexivity.
      * intros Hf. now apply written_content.
Qed.

Lemma save_in_place_witness :
  exists tree' fs',
    SleepyTree.save Reference.two_points Reference.no_files = Returns (tree', fs') /\
    FS.files fs' !! "out/meta"%string = Some Reference.two_points_text.
Proof.
  destruct (save_in_place Reference.two_points Reference.no_files
              Reference.no_files
              [mkPointInfo tt Reference.three_samples 2 7;
               mkPointInfo tt Reference.three_samples 0 7]
              (Json.Object [("bbox", Reference.rect_toJson Reference.unit_square);
                            ("schema", Json.Array []);
                            ("registry", Json.UInt 2)]%string)
              eq_refl)
    as (_ & _ & H).
  destruct H as [(tree' & fs' & S & W & _) _].
  - vm_compute. discriminate.
  - exists tree', fs'. split; [exact S|]. apply W. reflexivity.
Defined.

(** C8 as stated fails.  A second save that stops right after opening
    the file leaves it empty: the document stored by the first save is
    gone and the directory can no longer be loaded.  And on a device
    without room [save] returns normally although nothing was
    written. *)
Lemma save_not_atomic :
  SleepyTree.save Reference.two_points Reference.no_files
    = Returns (Reference.two_points, Reference.saved) /\
  SleepyTree.open "out" Reference.saved = Returns (Reference.tree_at 0) /\
  SleepyTree.save_interrupted Reference.two_points Reference.saved 0
    = Returns Reference.emptied /\
  SleepyTree.open "out" Reference.emptied
    = Throws (collaborator_error "BBox::fromJson") /\
  SleepyTree.save Reference.two_points Reference.no_room
    = Returns (Reference.two_points,
               FS.mk {[ "out/meta"%string := EmptyString ]} ∅ true).
Proof. repeat split; vm_compute; reflexivity. Qed.





(** * Further properties of the code *)

(** ** [getOffset] *)

Lemma Addr_geometric D n :
  0 <= D -> (2 ^ D - 1) * Addr D n = 2 ^ (Z.of_nat n * D) - 1.
Proof.
  intros HD. induction n as [|n IH].
  - cbn [Addr]. change (Z.of_nat 0 * D) with 0. lia.
  - cbn [Addr].
    replace (Z.of_nat (S n) * D) with (Z.of_nat n * D + D) by lia.
    rewrite Z.pow_add_r by lia.
    transitivity (2 ^ D * ((2 ^ D - 1) * Addr D n) + (2 ^ D - 1)); [ring|].
    rewrite IH. ring.
Qed.

Lemma Addr_strict D i j : 0 <= D -> (i < j)%nat -> Addr D i < Addr D j.
Proof.
  intros HD Hij.
  apply Z.lt_le_trans with (Addr D (S i)).
  - rewrite Addr_step by assumption.
    assert (0 < 2 ^ (Z.of_nat i * D)) by (apply Z.pow_pos_nonneg; lia). lia.
  - apply Addr_mono; lia.
Qed.

(** Within the capacity of the index, [getOffset] is the geometric sum
    [1 + 2^D + ... + 2^((depth-1)*D)]: the number of nodes of the levels
    above [depth]. *)
Theorem getOffset_closed_form (depth D : Z) :
  1 <= D < SizeT.bits -> 0 <= depth <= Z.of_nat (capacity D) ->
  exists a,
    getOffset depth D = Returns a /\
    (2 ^ D - 1) * a = 2 ^ (depth * D) - 1 /\
    a = (2 ^ (depth * D) - 1) / (2 ^ D - 1).
Proof.
  intros HD Hd. exists (Addr D (Z.to_nat depth)).
  assert (G : (2 ^ D - 1) * Addr D (Z.to_nat depth) = 2 ^ (depth * D) - 1).
  { rewrite Addr_geometric by lia. now rewrite Z2Nat.id by lia. }
  split; [apply getOffset_exact; lia|]. split; [exact G|].
  assert (1 < 2 ^ D) by (apply Z.pow_gt_1; lia).
  rewrite <- G. rewrite Z.mul_comm. now rewrite Z.div_mul by lia.
Qed.

Lemma getOffset_closed_form_witness :
  exists a, getOffset 4 2 = Returns a /\ a = (2 ^ (4 * 2) - 1) / (2 ^ 2 - 1).
Proof.
  destruct (getOffset_closed_form 4 2) as (a & H1 & _ & H3).
  - unfold SizeT.bits. lia.
  - vm_compute. split; discriminate.
  - exists a. split; assumption.
Defined.

(** [getOffset] returns exactly when no shift by 64 or more is run:
    at depth 0 (where it returns 0 whatever the dimensionality) or for a
    dimensionality below 64; in every other case its behaviour is
    undefined. *)
Theorem getOffset_defined_iff (depth D : Z) :
  0 <= depth -> 0 <= D ->
  ((exists a, getOffset depth D = Returns a) <-> depth = 0 \/ D < SizeT.bits) /\
  (depth = 0 -> getOffset depth D = Returns 0) /\
  (0 < depth -> SizeT.bits <= D -> getOffset depth D = Undefined).
Proof.
  intros Hd HD. split; [|split].
  - split.
    + intros [a E].
      destruct (Z.eq_dec depth 0) as [|Hne]; [now left|right].
      destruct (Z.lt_ge_cases D SizeT.bits) as [|Hge]; [assumption|].
      rewrite getOffset_undefined in E by lia. discriminate.
    + intros [->|Hlt]; [now exists 0|].
      eexists. apply getOffset_wrap. lia.
  - now intros ->.
  - intros Hpos Hge. now apply getOffset_undefined.
Qed.

Lemma getOffset_defined_iff_witness :
  getOffset 0 70 = Returns 0 /\ getOffset 3 70 = Undefined.
Proof.
  destruct (getOffset_defined_iff 0 70) as (_ & H0 & _); [lia..|].
  destruct (getOffset_defined_iff 3 70) as (_ & _ & H3); [lia..|].
  split; [now apply H0|]. apply H3; [lia|unfold SizeT.bits; lia].
Defined.

(** Deeper boundaries are never smaller, and within the capacity of the
    index they are strictly larger: distinct depths there have distinct
    boundaries, each at least its depth. *)
Theorem getOffset_increasing (D d1 d2 a1 a2 : Z) :
  1 <= D -> 0 <= d1 <= d2 ->
  getOffset d1 D = Returns a1 -> getOffset d2 D = Returns a2 ->
  a1 <= a2 /\
  (d1 < d2 -> d2 <= Z.of_nat (capacity D) -> D < SizeT.bits -> a1 < a2) /\
  (d1 <= Z.of_nat (capacity D) -> D < SizeT.bits -> d1 <= a1).
Proof.
  intros HD Hd E1 E2. split; [|split].
  - destruct (getOffset_monotone D d1 d2 a1 a2) as [H _]; try assumption; lia.
  - intros Hlt Hcap Hbits.
    rewrite getOffset_exact in E1, E2 by lia.
    injection E1 as <-. injection E2 as <-.
    apply Addr_strict; lia.
  - intros Hcap Hbits. rewrite getOffset_exact in E1 by lia. injection E1 as <-.
    assert (G : forall n, Z.of_nat n <= Addr D n).
    { induction n as [|n IH]; [cbn; lia|].
      rewrite Addr_step by lia.
      assert (0 < 2 ^ (Z.of_nat n * D)) by (apply Z.pow_pos_nonneg; lia). lia. }
    specialize (G (Z.to_nat d1)). lia.
Qed.

Lemma getOffset_increasing_witness :
  getOffset 2 3 = Returns 9 /\ getOffset 5 3 = Returns 4681 /\ 9 < 4681.
Proof.
  split; [reflexivity|]. split; [reflexivity|].
  destruct (getOffset_increasing 3 2 5 9 4681) as (_ & H & _);
    [lia|lia|reflexivity|reflexivity|].
  apply H; [lia|vm_compute; discriminate|reflexivity].
Defined.

(** ** [Branch]: which indices a branch owns *)

Section BranchOwnership.

Context {Schema : Type}.
Implicit Types (b : Branch.t Schema) (s : Schema).

Lemma make_ordered s D db de b :
  1 <= D -> db <= de -> Branch.make s D db de = Returns b ->
  0 <= Branch.indexBegin b <= Branch.indexEnd b /\
  Branch.indexEnd b < SizeT.modulus.
Proof.
  intros HD Hle M. apply make_inv in M as (HB & HE & _).
  exact (getOffset_monotone D db de _ _ HD Hle HB HE).
Qed.

End BranchOwnership.

(** A branch owns whole levels: an index lying between the boundary of
    depth [d] and the boundary of depth [d + 1] is accepted exactly when
    [d] is one of the depths of the branch. *)
Theorem branch_owns_levels {Schema : Type} (s : Schema) (b : Branch.t Schema)
    (D db de d lo hi index : Z) :
  1 <= D -> 0 <= d ->
  Branch.make s D db de = Returns b ->
  getOffset d D = Returns lo -> getOffset (d + 1) D = Returns hi ->
  lo <= index < hi ->
  (Branch.accepts b index = true <-> db <= d < de).
Proof.
  intros HD Hd M Elo Ehi Hi.
  apply make_inv in M as (HB & HE & _).
  rewrite accepts_iff. split.
  - intros [H1 H2]. split.
    + destruct (Z.le_gt_cases db d) as [|Hgt]; [assumption|].
      destruct (getOffset_monotone D (d + 1) db _ _ HD ltac:(lia) Ehi HB). lia.
    + destruct (Z.lt_ge_cases d de) as [|Hge]; [assumption|].
      destruct (getOffset_monotone D de d _ _ HD ltac:(lia) HE Elo). lia.
  - intros [H1 H2]. split.
    + destruct (getOffset_monotone D db d _ _ HD H1 HB Elo). lia.
    + destruct (getOffset_monotone D (d + 1) de _ _ HD ltac:(lia) Ehi HE). lia.
Qed.

Lemma branch_owns_levels_witness :
  exists b : Branch.t unit,
    Branch.make tt 2 1 3 = Returns b /\
    Branch.accepts b 7 = true /\ Branch.accepts b 30 = false.
Proof.
  eexists. split; [reflexivity|].
  pose proof (branch_owns_levels tt _ 2 1 3 2 5 21 7 ltac:(lia) ltac:(lia)
                eq_refl eq_refl eq_refl ltac:(lia)) as H2.
  pose proof (branch_owns_levels tt _ 2 1 3 3 21 85 30 ltac:(lia) ltac:(lia)
                eq_refl eq_refl eq_refl ltac:(lia)) as H3.
  split.
  - apply H2. lia.
  - apply not_true_iff_false. intros A. apply H3 in A. lia.
Defined.

(** For depth bounds in increasing order [size()] is the number of
    accepted indices: these are exactly [indexBegin + k] for
    [0 <= k < size()]. *)
Theorem branch_size_counts_accepted {Schema : Type} (s : Schema)
    (b : Branch.t Schema) (D db de : Z) :
  1 <= D -> db <= de ->
  Branch.make s D db de = Returns b ->
  0 <= Branch.size b /\
  forall index,
    Branch.accepts b index = true <->
    exists k, 0 <= k < Branch.size b /\ index = Branch.indexBegin b + k.
Proof.
  intros HD Hle M.
  destruct (make_ordered _ _ _ _ _ HD Hle M) as [Hord Hlt].
  rewrite (size_exact b) by assumption.
  split; [lia|]. intros index. rewrite accepts_iff. split.
  - intros Hi. exists (index - Branch.indexBegin b). lia.
  - intros (k & Hk & ->). lia.
Qed.

Lemma branch_size_counts_accepted_witness :
  exists b : Branch.t unit,
    Branch.make tt 2 1 2 = Returns b /\ Branch.size b = 4 /\
    (Branch.accepts b 4 = true <->
     exists k, 0 <= k < Branch.size b /\ 4 = Branch.indexBegin b + k).
Proof.
  eexists. split; [reflexivity|]. split; [reflexivity|].
  destruct (branch_size_counts_accepted tt _ 2 1 2 ltac:(lia) ltac:(lia) eq_refl)
    as [_ H].
  apply H.
Defined.

(** Within the capacity of the index a branch over depths
    [depthBegin <= depthEnd] holds [2^(d*D)] nodes for each of its
    depths [d]: [(2^D - 1) * size() = 2^(depthEnd*D) - 2^(depthBegin*D)]. *)
Theorem branch_size_closed_form {Schema : Type} (s : Schema)
    (b : Branch.t Schema) (D db de : Z) :
  1 <= D < SizeT.bits -> 0 <= db <= de -> de <= Z.of_nat (capacity D) ->
  Branch.make s D db de = Returns b ->
  (2 ^ D - 1) * Branch.size b = 2 ^ (de * D) - 2 ^ (db * D) /\
  (de = db + 1 -> Branch.size b = 2 ^ (db * D)).
Proof.
  intros HD Hd Hcap M.
  destruct (make_ordered s D db de b ltac:(lia) ltac:(lia) M) as [Hord Hlt].
  rewrite (size_exact b) by assumption.
  apply make_inv in M as (HB & HE & _).
  rewrite getOffset_exact in HB, HE by lia.
  injection HB as HB. injection HE as HE. rewrite <- HB, <- HE.
  assert (G : (2 ^ D - 1) * (Addr D (Z.to_nat de) - Addr D (Z.to_nat db))
              = 2 ^ (de * D) - 2 ^ (db * D)).
  { rewrite Z.mul_sub_distr_l, !Addr_geometric by lia.
    rewrite !Z2Nat.id by lia. ring. }
  split; [exact G|].
  intros ->. replace (Z.to_nat (db + 1)) with (S (Z.to_nat db)) by lia.
  rewrite Addr_step by lia. rewrite Z2Nat.id by lia. ring.
Qed.

Lemma branch_size_closed_form_witness :
  exists b : Branch.t unit,
    Branch.make tt 3 2 3 = Returns b /\ Branch.size b = 2 ^ (2 * 3).
Proof.
  eexists. split; [reflexivity|].
  destruct (branch_size_closed_form tt (Branch.mk tt 2 3 9 73) 3 2 3) as [_ H];
    [unfold SizeT.bits; lia|lia|vm_compute; discriminate|reflexivity|].
  apply H. reflexivity.
Defined.

(** Branches that own nothing.  With [depthEnd <= depthBegin] no index
    is accepted, although [size()] may be large; and a branch whose two
    depth bounds both lie at or past the capacity of the index accepts
    no index and has size 0, however far apart the bounds are. *)
Theorem branch_empty {Schema : Type} (s : Schema) (b : Branch.t Schema)
    (D db de : Z) :
  1 <= D ->
  Branch.make s D db de = Returns b ->
  (de <= db -> forall index, Branch.accepts b index = false) /\
  (D < SizeT.bits ->
   Z.of_nat (capacity D) <= db -> Z.of_nat (capacity D) <= de ->
   (forall index, Branch.accepts b index = false) /\ Branch.size b = 0).
Proof.
  intros HD M. pose proof (make_inv _ _ _ _ _ M) as (HB & HE & _). split.
  - intros Hle index. apply not_true_iff_false. rewrite accepts_iff.
    destruct (getOffset_monotone D de db _ _ HD Hle HE HB). lia.
  - intros Hbits Hb He.
    rewrite getOffset_saturates in HB, HE by lia.
    rewrite Nat.min_r in HB, HE by lia.
    injection HB as HB. injection HE as HE.
    split.
    + intros index. apply not_true_iff_false. rewrite accepts_iff. lia.
    + unfold Branch.size, SizeT.sub. fold (Branch.indexBegin b) (Branch.indexEnd b).
      rewrite <- HB, <- HE, Z.sub_diag. reflexivity.
Qed.

Lemma branch_empty_witness :
  exists b : Branch.t unit,
    Branch.make tt 3 22 40 = Returns b /\
    Branch.accepts b 10540996613548315209 = false /\ Branch.size b = 0.
Proof.
  eexists. split; [vm_compute; reflexivity|].
  destruct (branch_empty tt _ 3 22 40 ltac:(lia) ltac:(vm_compute; reflexivity))
    as [_ H].
  destruct H as [H1 H2]; [reflexivity|vm_compute; discriminate..|].
  split; [apply H1|exact H2].
Defined.

(** Three branches over [(0, base)], [(base, flat)] and [(flat, disk)]
    share out the indices below the boundary of [disk]: each such index
    is accepted by exactly one of them, and no index at or above that
    boundary is accepted by any. *)
Theorem three_branches_partition {Schema : Type} (s : Schema)
    (b1 b2 b3 : Branch.t Schema) (D base flat disk : Z) :
  1 <= D -> 0 <= base <= flat -> flat <= disk ->
  Branch.make s D 0 base = Returns b1 ->
  Branch.make s D base flat = Returns b2 ->
  Branch.make s D flat disk = Returns b3 ->
  forall index, 0 <= index ->
    let owners :=
      List.filter (fun b => Branch.accepts b index) [b1; b2; b3] in
    (index < Branch.indexEnd b3 -> List.length owners = 1%nat) /\
    (Branch.indexEnd b3 <= index -> owners = []).
Proof.
  intros HD Hbf Hfd M1 M2 M3 index Hi.
  destruct (make_ordered s D 0 base b1 HD ltac:(lia) M1) as [O1 _].
  destruct (make_ordered s D base flat b2 HD ltac:(lia) M2) as [O2 _].
  destruct (make_ordered s D flat disk b3 HD ltac:(lia) M3) as [O3 _].
  apply make_inv in M1 as (B1 & E1 & _).
  apply make_inv in M2 as (B2 & E2 & _).
  apply make_inv in M3 as (B3 & E3 & _).
  assert (Z1 : Branch.indexBegin b1 = 0)
    by (change (getOffset 0 D) with (Returns (A := Z) 0) in B1; congruence).
  assert (C12 : Branch.indexEnd b1 = Branch.indexBegin b2) by congruence.
  assert (C23 : Branch.indexEnd b2 = Branch.indexBegin b3) by congruence.
  cbn [List.filter]. unfold Branch.accepts.
  fold (Branch.indexBegin b1) (Branch.indexEnd b1)
       (Branch.indexBegin b2) (Branch.indexEnd b2)
       (Branch.indexBegin b3) (Branch.indexEnd b3).
  split; intros Hlt;
    destruct (Z.leb_spec (Branch.indexBegin b1) index);
    destruct (Z.ltb_spec index (Branch.indexEnd b1));
    destruct (Z.leb_spec (Branch.indexBegin b2) index);
    destruct (Z.ltb_spec index (Branch.indexEnd b2));
    destruct (Z.leb_spec (Branch.indexBegin b3) index);
    destruct (Z.ltb_spec index (Branch.indexEnd b3));
    cbn; try reflexivity; lia.
Qed.

Lemma three_branches_partition_witness :
  exists b1 b2 b3 : Branch.t unit,
    Branch.make tt 2 0 0 = Returns b1 /\ Branch.make tt 2 0 2 = Returns b2 /\
    Branch.make tt 2 2 4 = Returns b3 /\
    List.length (List.filter (fun b => Branch.accepts b 84) [b1; b2; b3]) = 1%nat /\
    List.filter (fun b => Branch.accepts b 85) [b1; b2; b3] = [].
Proof.
  eexists _, _, _. split; [reflexivity|]. split; [reflexivity|].
  split; [reflexivity|].
  pose proof (three_branches_partition tt _ _ _ 2 0 2 4 ltac:(lia) ltac:(lia)
                ltac:(lia) eq_refl eq_refl eq_refl) as H.
  split.
  - apply (H 84); [lia|reflexivity].
  - apply (H 85); [lia|]. vm_compute. discriminate.
Defined.

(** ** [Branch]: reading and writing the depth bounds *)

Lemma update_same key x members :
  Json.lookup key members = Some x -> Json.update key x members = members.
Proof.
  induction members as [|[k v] rest IH]; cbn [Json.lookup Json.update];
    [discriminate|].
  destruct (String.eqb k key); intros E.
  - now injection E as ->.
  - now rewrite IH.
Qed.

(** Both constructors establish the same invariant: a branch read from
    metadata is the branch the explicit constructor builds from the
    depth bounds found there, so its index bounds are [getOffset] of its
    depth bounds. *)
Theorem from_meta_is_make {Schema : Type} (s : Schema) (D : Z)
    (meta : Json.Value) (b : Branch.t Schema) :
  Branch.from_meta s D meta = Returns b ->
  Branch.make s D (Branch.depthBegin b) (Branch.depthEnd b) = Returns b /\
  bind (Json.get meta "depthBegin") Json.asUInt64
    = Returns (Branch.depthBegin b) /\
  bind (Json.get meta "depthEnd") Json.asUInt64
    = Returns (Branch.depthEnd b) /\
  getOffset (Branch.depthBegin b) D = Returns (Branch.indexBegin b) /\
  getOffset (Branch.depthEnd b) D = Returns (Branch.indexEnd b).
Proof.
  unfold Branch.from_meta. intros E.
  bind_inv E as jB. bind_inv E as db. bind_inv E as jE. bind_inv E as de.
  bind_inv E as ib. bind_inv E as ie. injection E as <-.
  cbn [Branch.depthBegin Branch.depthEnd Branch.indexBegin Branch.indexEnd
       Branch.m_depthBegin Branch.m_depthEnd Branch.m_indexBegin
       Branch.m_indexEnd bind].
  unfold Branch.make. rewrite E4, E5. cbn [bind]. auto.
Qed.

Lemma from_meta_is_make_witness :
  exists b : Branch.t unit,
    Branch.from_meta tt 2
      (Json.Object [("depthEnd", Json.Int 3); ("depthBegin", Json.UInt 1)]%string)
      = Returns b /\
    Branch.make tt 2 1 3 = Returns b.
Proof.
  eexists. split; [reflexivity|].
  destruct (from_meta_is_make tt 2
              (Json.Object [("depthEnd", Json.Int 3);
                            ("depthBegin", Json.UInt 1)]%string)
              (Branch.mk tt 1 3 1 21) eq_refl) as [H _].
  exact H.
Defined.

(** A depth member that is missing reads as 0.  From a null node, or an
    object that has neither member, the constructor builds the branch
    with all four bounds 0, for every dimensionality (no shift is run):
    a branch that accepts nothing, not an error. *)
Theorem from_meta_missing_members {Schema : Type} (s : Schema) (D : Z)
    (meta : Json.Value) :
  meta = Json.Null \/
  (exists members,
      meta = Json.Object members /\
      Json.lookup "depthBegin" members = None /\
      Json.lookup "depthEnd" members = None) ->
  Branch.from_meta s D meta = Returns (Branch.mk s 0 0 0 0) /\
  (forall index, Branch.accepts (Branch.mk s 0 0 0 0) index = false) /\
  Branch.size (Branch.mk s 0 0 0 0) = 0.
Proof.
  intros Hm. split; [|split].
  - destruct Hm as [->|(members & -> & HB & HE)]; unfold Branch.from_meta;
      cbn [Json.get]; [|rewrite HB, HE]; reflexivity.
  - intros index. apply not_true_iff_false. rewrite accepts_iff. cbn. lia.
  - reflexivity.
Qed.

Lemma from_meta_missing_members_witness :
  Branch.from_meta tt 70 (Json.Object [("tier", Json.String "resident")]%string)
    = Returns (Branch.mk tt 0 0 0 0).
Proof.
  destruct (from_meta_missing_members tt 70
              (Json.Object [("tier", Json.String "resident")]%string)) as [H _].
  - right. eexists. split; [reflexivity|]. split; reflexivity.
  - exact H.
Defined.

(** Saving into a node that already holds depth bounds replaces them:
    after a second branch saved its bounds the node reads back as that
    branch's bounds and every other member is as before the first save;
    and saving the same branch again changes nothing. *)
Theorem save_bounds_last_wins {Schema : Type} (b1 b2 : Branch.t Schema)
    (meta m1 : Json.Value) :
  Branch.save_bounds b1 meta = Returns m1 ->
  Branch.save_bounds b1 m1 = Returns m1 /\
  exists m2,
    Branch.save_bounds b2 m1 = Returns m2 /\
    Json.get m2 "depthBegin" = Returns (Json.UInt (Branch.depthBegin b2)) /\
    Json.get m2 "depthEnd" = Returns (Json.UInt (Branch.depthEnd b2)) /\
    (forall key, key <> "depthBegin"%string -> key <> "depthEnd"%string ->
                 Json.get m2 key = Json.get meta key).
Proof.
  intros E1.
  pose proof (save_bounds_inv _ _ _ E1) as (HB & HE & Hother).
  assert (Hobj : exists members, m1 = Json.Object members).
  { unfold Branch.save_bounds in E1.
    destruct meta; cbn [Json.set bind] in E1; try discriminate;
      injection E1 as <-; eauto. }
  destruct Hobj as [members ->]. split.
  - cbn [Json.get] in HB, HE. injection HB as HB. injection HE as HE.
    unfold Branch.save_bounds. cbn [Json.set bind].
    unfold Branch.depthBegin, Branch.depthEnd in HB, HE.
    destruct (Json.lookup "depthBegin" members) as [x|] eqn:LB; [|discriminate].
    destruct (Json.lookup "depthEnd" members) as [y|] eqn:LE; [|discriminate].
    subst x y. rewrite (update_same _ _ _ LB). cbn [Json.set].
    now rewrite (update_same _ _ _ LE).
  - destruct (Branch.save_bounds b2 (Json.Object members)) as [m2| |] eqn:E2;
      try (unfold Branch.save_bounds in E2; cbn [Json.set bind] in E2; discriminate).
    exists m2. pose proof (save_bounds_inv _ _ _ E2) as (HB2 & HE2 & Hother2).
    repeat split; try assumption.
    intros key K1 K2. rewrite Hother2 by assumption. now apply Hother.
Qed.

Lemma save_bounds_last_wins_witness :
  exists m2,
    Branch.save_bounds (Branch.mk tt 2 4 5 85)
      (Json.Object [("depthBegin", Json.UInt 0); ("depthEnd", Json.UInt 2)]%string)
      = Returns m2 /\
    Json.get m2 "depthBegin" = Returns (Json.UInt 2).
Proof.
  destruct (save_bounds_last_wins (Branch.mk tt 0 2 0 5) (Branch.mk tt 2 4 5 85)
              Json.Null _ eq_refl) as (_ & m2 & S2 & HB & _).
  exists m2. split; [exact S2|exact HB].
Defined.

(** ** The facade: pointers, batches and degenerate documents *)

Section Facade.

Context {C : Collaborators}.
Implicit Types (tree : SleepyTree.t) (pointBuffer : PointBuffer).

Lemma insert_loop_outside pointBuffer origin bbox samples :
  forall tree,
    SleepyTree.m_bbox tree = Some bbox ->
    List.filter
      (fun i => BBox_contains bbox (SleepyTree.sample_point pointBuffer i))
      samples = [] ->
    SleepyTree.insert_loop pointBuffer origin samples tree = Returns tree.
Proof.
  induction samples as [|i rest IH]; intros tree Hb Hf;
    cbn [SleepyTree.insert_loop]; [reflexivity|].
  cbn [List.filter] in Hf.
  destruct (BBox_contains bbox (SleepyTree.sample_point pointBuffer i)) eqn:Hc;
    [discriminate|].
  rewrite (insert_sample_outside _ _ _ _ _ Hb Hc). cbn [bind]. now apply IH.
Qed.

Lemma insert_inv tree pointBuffer origin tree' bbox schema registry :
  SleepyTree.m_bbox tree = Some bbox ->
  SleepyTree.m_schema tree = Some schema ->
  SleepyTree.m_registry tree = Some registry ->
  SleepyTree.insert tree pointBuffer origin = Returns tree' ->
  exists placed,
    SleepyTree.put_all bbox (Schema_pointContext schema) pointBuffer origin
      (SleepyTree.contained bbox pointBuffer) registry = Returns placed /\
    tree' = SleepyTree.mk (SleepyTree.m_dir tree) (Some bbox) (Some schema)
              (Nat.iter (List.length (SleepyTree.contained bbox pointBuffer))
                        (fun c => SizeT.add c 1) (SleepyTree.numPoints tree))
              (Some placed).
Proof.
  intros Hb Hs Hr E. unfold SleepyTree.insert in E.
  exact (insert_loop_spec _ _ _ _ _ _ _ _ Hb Hs Hr E).
Qed.

Lemma counter_iter_range k n :
  SizeT.in_range n ->
  SizeT.in_range (Nat.iter k (fun c => SizeT.add c 1) n).
Proof.
  intros Hn. destruct k as [|k]; [exact Hn|].
  rewrite Nat.iter_succ. unfold SizeT.add, SizeT.wrap, SizeT.in_range.
  apply Z.mod_pos_bound. reflexivity.
Qed.

End Facade.

(** No constructed tree has an empty pointer.  Both constructors and
    [load] produce a tree whose bounding box, schema and Registry are
    set, [insert] keeps them set, and [save] returns only for such a
    tree and hands one back; on such a tree [getBounds] and
    [pointContext] return. *)
Theorem tree_stays_initialised {C : Collaborators} :
  (forall dir bbox schema b f d tree,
      SleepyTree.make dir bbox schema b f d = Returns tree ->
      SleepyTree.initialised tree) /\
  (forall dir fs tree,
      SleepyTree.open dir fs = Returns tree -> SleepyTree.initialised tree) /\
  (forall tree fs tree',
      SleepyTree.load tree fs = Returns tree' -> SleepyTree.initialised tree') /\
  (forall tree pointBuffer origin tree',
      SleepyTree.initialised tree ->
      SleepyTree.insert tree pointBuffer origin = Returns tree' ->
      SleepyTree.initialised tree') /\
  (forall tree fs tree' fs',
      SleepyTree.save tree fs = Returns (tree', fs') ->
      SleepyTree.initialised tree /\ SleepyTree.initialised tree') /\
  (forall tree,
      SleepyTree.initialised tree ->
      (exists bbox, SleepyTree.getBounds tree = Returns bbox) /\
      (exists context, SleepyTree.pointContext tree = Returns context)).
Proof.
  assert (L : forall tree fs tree',
             SleepyTree.load tree fs = Returns tree' ->
             SleepyTree.initialised tree').
  { intros tree fs tree' E. unfold SleepyTree.load in E.
    destruct (FS.ifstream_open fs (SleepyTree.metaPath tree)); [|discriminate].
    do 14 (bind_inv E as ?). injection E as <-.
    unfold SleepyTree.initialised. cbn. repeat split; eexists; reflexivity. }
  split; [|split; [|split; [|split; [|split]]]].
  - intros dir bbox schema b f d tree E. unfold SleepyTree.make in E.
    bind_inv E as registry. injection E as <-.
    unfold SleepyTree.initialised. cbn. repeat split; eexists; reflexivity.
  - intros dir fs tree E. exact (L _ _ _ E).
  - exact L.
  - intros tree pointBuffer origin tree' ([bbox Hb] & [schema Hs] & [registry Hr]) E.
    destruct (insert_inv _ _ _ _ _ _ _ Hb Hs Hr E) as (placed & _ & ->).
    unfold SleepyTree.initialised. cbn. repeat split; eexists; reflexivity.
  - intros tree fs tree' fs' E.
    apply save_inv in E as (r & doc & fs1 & D & _ & -> & _).
    apply save_document_shape in D as (bbox & schema & reg & sub & Hb & Hs & Hr & _).
    unfold SleepyTree.initialised. cbn. rewrite Hb, Hs, Hr.
    repeat split; eexists; reflexivity.
  - intros tree ([bbox Hb] & [schema Hs] & _). split.
    + exists bbox. unfold SleepyTree.getBounds. now rewrite Hb.
    + eexists. unfold SleepyTree.pointContext. rewrite Hs. reflexivity.
Qed.

Lemma tree_stays_initialised_witness :
  SleepyTree.initialised Reference.two_points /\
  exists bbox, SleepyTree.getBounds Reference.two_points = Returns bbox.
Proof.
  destruct (tree_stays_initialised (C := Reference.collaborators))
    as (_ & _ & _ & Hins & _ & Hget).
  assert (I0 : SleepyTree.initialised (Reference.tree_at 0)).
  { unfold SleepyTree.initialised. cbn. repeat split; eexists; reflexivity. }
  assert (I : SleepyTree.initialised Reference.two_points).
  { apply (Hins (Reference.tree_at 0) Reference.three_samples 7 _ I0).
    reflexivity. }
  split; [exact I|]. exact (proj1 (Hget _ I)).
Defined.

(** A batch with nothing to place leaves the tree exactly as it was: an
    empty buffer on any tree at all, and a buffer none of whose samples
    lies in the root bounding box on a tree that has one.  The Registry
    is not called. *)
Theorem insert_nothing {C : Collaborators} (tree : SleepyTree.t)
    (pointBuffer : PointBuffer) (origin : Z) :
  (PointBuffer_size pointBuffer <= 0 ->
   SleepyTree.insert tree pointBuffer origin = Returns tree) /\
  (forall bbox,
      SleepyTree.m_bbox tree = Some bbox ->
      SleepyTree.contained bbox pointBuffer = [] ->
      SleepyTree.insert tree pointBuffer origin = Returns tree).
Proof.
  split.
  - intros Hsize. unfold SleepyTree.insert, SleepyTree.indices.
    replace (Z.to_nat (PointBuffer_size pointBuffer)) with O by lia.
    reflexivity.
  - intros bbox Hb Hnone. unfold SleepyTree.insert.
    now apply (insert_loop_outside _ _ bbox).
Qed.

Lemma insert_nothing_witness :
  SleepyTree.insert Reference.two_points [(20, 3); (-1, 5)] 9
    = Returns Reference.two_points.
Proof.
  destruct (insert_nothing (C := Reference.collaborators) Reference.two_points
              [(20, 3); (-1, 5)] 9) as [_ H].
  apply (H Reference.unit_square); reflexivity.
Defined.

(** Two batches in a row.  The second [insert] continues from what the
    first left: the Registry receives the contained samples of the
    first buffer and then those of the second, the counter has grown by
    both counts (modulo [2^64]), and directory, bounds and schema are
    those of the tree the batches started from. *)
Theorem insert_twice {C : Collaborators} (tree tree1 tree2 : SleepyTree.t)
    (buffer1 buffer2 : PointBuffer) (origin1 origin2 : Z)
    (bbox : BBox) (schema : Schema) (registry : Registry) :
  SleepyTree.m_bbox tree = Some bbox ->
  SleepyTree.m_schema tree = Some schema ->
  SleepyTree.m_registry tree = Some registry ->
  SizeT.in_range (SleepyTree.numPoints tree) ->
  SleepyTree.insert tree buffer1 origin1 = Returns tree1 ->
  SleepyTree.insert tree1 buffer2 origin2 = Returns tree2 ->
  let n1 := Z.of_nat (List.length (SleepyTree.contained bbox buffer1)) in
  let n2 := Z.of_nat (List.length (SleepyTree.contained bbox buffer2)) in
  SleepyTree.numPoints tree2 = SizeT.wrap (SleepyTree.numPoints tree + n1 + n2) /\
  SleepyTree.dir tree2 = SleepyTree.dir tree /\
  SleepyTree.getBounds tree2 = Returns bbox /\
  SleepyTree.m_schema tree2 = Some schema /\
  exists placed1 placed2,
    SleepyTree.put_all bbox (Schema_pointContext schema) buffer1 origin1
      (SleepyTree.contained bbox buffer1) registry = Returns placed1 /\
    SleepyTree.put_all bbox (Schema_pointContext schema) buffer2 origin2
      (SleepyTree.contained bbox buffer2) placed1 = Returns placed2 /\
    SleepyTree.m_registry tree2 = Some placed2.
Proof.
  intros Hb Hs Hr Hn E1 E2 n1 n2.
  destruct (insert_inv _ _ _ _ _ _ _ Hb Hs Hr E1) as (placed1 & P1 & ->).
  apply insert_inv with (bbox := bbox) (schema := schema) (registry := placed1)
    in E2; [|reflexivity..].
  destruct E2 as (placed2 & P2 & ->).
  cbn [SleepyTree.numPoints SleepyTree.m_numPoints SleepyTree.dir
       SleepyTree.m_dir SleepyTree.getBounds SleepyTree.m_bbox
       SleepyTree.m_schema SleepyTree.m_registry deref].
  fold (SleepyTree.numPoints tree).
  split; [|split; [reflexivity|split; [reflexivity|split; [reflexivity|]]]].
  - rewrite (counter_iter _ (Nat.iter _ _ _))
      by (apply counter_iter_range; assumption).
    rewrite counter_iter by assumption.
    unfold SizeT.wrap. rewrite Z.add_mod_idemp_l by (rewrite modulus_eq; lia).
    reflexivity.
  - exists placed1, placed2. auto.
Qed.

Lemma insert_twice_witness :
  exists tree2 : SleepyTree.t,
    SleepyTree.insert Reference.two_points [(3, 3)] 8 = Returns tree2 /\
    SleepyTree.numPoints tree2 = 3.
Proof.
  pose (tree2 :=
          SleepyTree.mk (C := Reference.collaborators) "out"
            (Some Reference.unit_square) (Some tt) 3
            (Some [mkPointInfo tt [(3, 3)] 0 8;
                   mkPointInfo tt Reference.three_samples 2 7;
                   mkPointInfo tt Reference.three_samples 0 7])).
  exists tree2. split; [reflexivity|].
  destruct (insert_twice (Reference.tree_at 0) Reference.two_points tree2
              Reference.three_samples [(3, 3)] 7 8
              Reference.unit_square tt [] eq_refl eq_refl eq_refl)
    as (H & _); [|reflexivity|reflexivity|exact H].
  unfold SizeT.in_range, SleepyTree.numPoints, Reference.tree_at.
  cbn [SleepyTree.m_numPoints]. rewrite modulus_eq. lia.
Defined.

(** What [load] makes of a null document, which is what a failed parse
    may leave.  It is not refused: every member reads as null, so the
    bounding box and the schema are built from null, the Registry is
    made with depths 0, 0, 0 and loaded from null; whether the
    constructor fails is then up to those collaborators. *)
Theorem load_degenerate_document {C : Collaborators} (tree : SleepyTree.t)
    (fs : FS.t) (content : string) :
  FS.ifstream_open fs (SleepyTree.metaPath tree) = Some content ->
  snd (Reader_parse content) = Json.Null ->
  SleepyTree.load tree fs =
  (do bbox <- BBox_fromJson Json.Null;
   do schema <- Schema_fromJson Json.Null;
   do made <- Registry_make schema 0 0 0;
   do loaded <- Registry_load made (SleepyTree.dir tree) Json.Null fs;
   Returns (SleepyTree.mk (SleepyTree.dir tree) (Some bbox) (Some schema)
              (SleepyTree.numPoints tree) (Some loaded))).
Proof.
  intros O P. unfold SleepyTree.load. rewrite O, P. reflexivity.
Qed.

Lemma load_degenerate_document_witness :
  SleepyTree.open "out" Reference.emptied
    = Throws (collaborator_error "BBox::fromJson").
Proof.
  unfold SleepyTree.open.
  rewrite (load_degenerate_document (C := Reference.collaborators)
             (SleepyTree.mk "out" None None 0 None) Reference.emptied
             EmptyString);
    [reflexivity|vm_compute; reflexivity|reflexivity].
Defined.

Lemma reopen_after_save_witness :
  exists tree' fs',
    SleepyTree.save Reference.two_points Reference.no_files = Returns (tree', fs') /\
    SleepyTree.open "out" fs' = Returns (Reference.tree_at 0).
Proof.
  destruct (reopen_after_save (C := Reference.collaborators)
              Reference.two_points Reference.no_files Reference.unit_square tt
              [mkPointInfo tt Reference.three_samples 2 7;
               mkPointInfo tt Reference.three_samples 0 7]
              [mkPointInfo tt Reference.three_samples 2 7;
               mkPointInfo tt Reference.three_samples 0 7]
              (Json.UInt 2) Reference.no_files
              eq_refl eq_refl eq_refl eq_refl)
    as (tree' & fs' & S & O).
  - vm_compute. discriminate.
  - reflexivity.
  - vm_compute. reflexivity.
  - exists tree', fs'. split; [exact S|]. refine (eq_trans O _). reflexivity.
Defined.
